(** * c20 struct renderer: type instantiation and table projection

    A shallow embedding of [src/build/render/components/structs/index.js]:
    the generic substitution [processGenerics], the recursive resolver
    [instantiateType] and the table projection [renderTypeAsTable] with its
    per-call [seenTypes] registry, followed by the properties of the
    specification that can be stated over them.

    Conventions of the embedding.
    - A JavaScript object read from YAML is a record whose optional
      properties are [option]s: [None] is an absent property ([undefined]).
    - Numbers are integers ([Z]); [x || y] on numbers takes [y] when [x] is
      absent or [0], on strings when [x] is absent or empty.
    - Property lookup is own-property lookup: type and placeholder names are
      assumed not to be names of [Object.prototype] members.
    - [throw] is the [Throw] outcome.  The resolver and the projection are
      not structurally recursive (they follow names through the registry),
      so both take a fuel argument and answer [OutOfFuel] when it runs out.
    - The markup produced by the [html] template helper, [escapeHtml],
      [slugify], the localizer and the markdown renderer live outside this
      file of the repository; the projection is embedded up to the tree of
      tables and rows it builds, each row holding the values the template
      interpolates. *)

From Stdlib Require Import ZArith Lia Ascii.
From stdpp Require Import base option list strings gmap pretty.

Local Open Scope Z_scope.

(** ** Outcomes of a computation that may throw *)

Inductive JsError : Type :=
  | UnresolvedTypeError (typeName : string)
  | UnresolvableSizeError (typeName entryType : string)
  | SizeAssertionError (typeName : string) (totalSize assertSize : Z)
  | UnhandledTypeClassError (cls : string)
  | ReferenceError (identifier : string)
  | TypeError (message : string).

(** The text each error carries, as the source builds it. *)
Definition errorMessage (e : JsError) : string :=
  match e with
  | UnresolvedTypeError typeName => "Failed to resolve type " +:+ typeName
  | UnresolvableSizeError typeName entryType =>
      "Failed to determine size of type " +:+ typeName
        +:+ " (entry " +:+ entryType +:+ ")"
  | SizeAssertionError typeName totalSize assertSize =>
      "Type " +:+ typeName +:+ " size did not match assertion: "
        +:+ pretty totalSize +:+ " != " +:+ pretty assertSize
  | UnhandledTypeClassError cls => "Unhandled type class: " +:+ cls
  | ReferenceError identifier => identifier +:+ " is not defined"
  | TypeError message => message
  end.

Inductive Outcome (A : Type) : Type :=
  | Ok (a : A)
  | Throw (e : JsError)
  | OutOfFuel.

Arguments Ok {A} a.
Arguments Throw {A} e.
Arguments OutOfFuel {A}.

#[global] Instance outcome_ret : MRet Outcome := λ A a, Ok a.
#[global] Instance outcome_bind : MBind Outcome := λ A B k m,
  match m with
  | Ok a => k a
  | Throw e => Throw e
  | OutOfFuel => OutOfFuel
  end.

Definition terminated {A : Type} (o : Outcome A) : Prop := o ≠ OutOfFuel.

(** ** Truthiness *)

(** [x || y] when [x] is a number or absent. *)
Definition truthyZ (x : option Z) : option Z :=
  match x with
  | Some z => if decide (z = 0) then None else Some z
  | None => None
  end.

(** [x || y] when [x] is a string or absent. *)
Definition truthyStr (x : option string) : option string :=
  match x with
  | Some s => if decide (s = "") then None else Some s
  | None => None
  end.

(** [{...a, ...b}] on one optional property: [b]'s value when [b] has it. *)
Definition spread {A : Type} (a b : option A) : option A :=
  match b with
  | Some _ => b
  | None => a
  end.

(** ** Data model *)

(** A [typeArgs] object: placeholder name to type name, in key order. *)
Definition TypeArgs : Type := list (string * string).

(** The per-language comment map of a definition or a field. *)
Definition Comments : Type := list (string * string).

(** A parameter object: a struct field, an [extends] entry, the expansion of
    an alias, or a request to [instantiateType]. *)
Record TypeParams : Type := mkParams {
  p_name : option string;
  p_type : string;
  p_typeArgs : option TypeArgs;
  p_size : option Z;
  p_count : option Z;
  p_labels : option (list string);
  p_comments : option Comments
}.

Record Bit : Type := mkBit {
  bit_name : option string
}.

Record EnumOption : Type := mkOption {
  opt_name : option string;
  opt_value : option Z
}.

(** A type definition of the registry, with every property the renderer
    reads.  [td_type], [td_typeArgs], [td_count] (and [td_size]) are what an
    alias expands to. *)
Record TypeDef : Type := mkTypeDef {
  td_class : option string;
  td_size : option Z;
  td_args : option (list string);
  td_endianness : option string;
  td_type : option string;
  td_typeArgs : option TypeArgs;
  td_count : option Z;
  td_fields : option (list TypeParams);
  td_extends : option TypeParams;
  td_assertSize : option Z;
  td_bits : option (list Bit);
  td_options : option (list EnumOption);
  td_labels : option (list string);
  td_comments : option Comments
}.

(** What [instantiateType] returns. *)
Record InstantiatedType : Type := mkInstantiated {
  it_typeDef : TypeDef;
  it_totalSize : Z;
  it_singleSize : Z;
  it_variableSize : option Z;
  it_count : option Z;
  it_typeArgs : option TypeArgs;
  it_typeName : string
}.

Definition primitiveDef (size : option Z) (args : option (list string)) : TypeDef :=
  mkTypeDef None size args None None None None None None None None None None None.

Definition INTRINSIC_TYPE_DEFS : gmap string TypeDef :=
  list_to_map [
    ("byte", primitiveDef (Some 1) None);
    ("bool", primitiveDef (Some 1) None);
    ("char", primitiveDef (Some 1) None);
    ("uint8", primitiveDef (Some 1) None);
    ("int8", primitiveDef (Some 1) None);
    ("uint16", primitiveDef (Some 2) None);
    ("int16", primitiveDef (Some 2) None);
    ("int32", primitiveDef (Some 4) None);
    ("uint32", primitiveDef (Some 4) None);
    ("int64", primitiveDef (Some 8) None);
    ("uint64", primitiveDef (Some 8) None);
    ("float", primitiveDef (Some 4) None);
    ("double", primitiveDef (Some 8) None);
    ("pad", primitiveDef None None);
    ("UTF-8", primitiveDef None None);
    ("UTF-16", primitiveDef None None);
    ("ptr32", primitiveDef (Some 4) (Some ["T"]));
    ("ptr64", primitiveDef (Some 8) (Some ["T"]))
  ].

(** ** Paths *)

(** A path id is an array of names or [null]. *)
Definition PathId : Type := option (list string).

Definition joinPathId (pathId : PathId) (next : option string) : PathId :=
  match pathId, truthyStr next with
  | Some names, Some n => Some (names ++ [n])
  | _, _ => None
  end.

(** ** Generic substitution *)

(** [typeArgs[key]] for a string key. *)
Fixpoint lookupArg (typeArgs : TypeArgs) (key : string) : option string :=
  match typeArgs with
  | [] => None
  | (k, v) :: rest => if decide (k = key) then Some v else lookupArg rest key
  end.

(** [typeArgs[v] || v] *)
Definition substName (typeArgs : TypeArgs) (v : string) : string :=
  match truthyStr (lookupArg typeArgs v) with
  | Some bound => bound
  | None => v
  end.

(** The entries of an arguments object with every value substituted. *)
Definition substArgs (typeArgs : TypeArgs) (args : TypeArgs) : TypeArgs :=
  map (λ kv, (kv.1, substName typeArgs kv.2)) args.

Definition processGenerics (genericParams : TypeParams)
    (typeArgs : option TypeArgs) : TypeParams :=
  match typeArgs with
  | None => genericParams
  | Some bindings =>
      mkParams (p_name genericParams)
        (substName bindings (p_type genericParams))
        (substArgs bindings <$> p_typeArgs genericParams)
        (p_size genericParams) (p_count genericParams)
        (p_labels genericParams) (p_comments genericParams)
  end.

(** ** The type instantiator *)

Definition classIs (typeDef : TypeDef) (cls : string) : bool :=
  bool_decide (td_class typeDef = Some cls).

(** [{...typeParams, ...typeDef}] as a parameter object: the properties of
    the alias definition override those of the request. *)
Definition spreadAlias (typeParams : TypeParams) (typeDef : TypeDef) : TypeParams :=
  mkParams (p_name typeParams)
    (default (p_type typeParams) (td_type typeDef))
    (spread (p_typeArgs typeParams) (td_typeArgs typeDef))
    (spread (p_size typeParams) (td_size typeDef))
    (spread (p_count typeParams) (td_count typeDef))
    (spread (p_labels typeParams) (td_labels typeDef))
    (spread (p_comments typeParams) (td_comments typeDef)).

(** [{...parentTypeDef, ...typeDef, fields}] *)
Definition spreadTypeDef (parentTypeDef typeDef : TypeDef)
    (fields : list TypeParams) : TypeDef :=
  mkTypeDef
    (spread (td_class parentTypeDef) (td_class typeDef))
    (spread (td_size parentTypeDef) (td_size typeDef))
    (spread (td_args parentTypeDef) (td_args typeDef))
    (spread (td_endianness parentTypeDef) (td_endianness typeDef))
    (spread (td_type parentTypeDef) (td_type typeDef))
    (spread (td_typeArgs parentTypeDef) (td_typeArgs typeDef))
    (spread (td_count parentTypeDef) (td_count typeDef))
    (Some fields)
    (spread (td_extends parentTypeDef) (td_extends typeDef))
    (spread (td_assertSize parentTypeDef) (td_assertSize typeDef))
    (spread (td_bits parentTypeDef) (td_bits typeDef))
    (spread (td_options parentTypeDef) (td_options typeDef))
    (spread (td_labels parentTypeDef) (td_labels typeDef))
    (spread (td_comments parentTypeDef) (td_comments typeDef)).

(** [count || 1] *)
Definition countOrOne (count : option Z) : Z := default 1 (truthyZ count).

Section Instantiate.
(** The closure of [renderStructYaml]: the registry and the entry type. *)
Variable typeDefs : gmap string TypeDef.
Variable entryType : string.

Section Body.
(** The recursive call. *)
Variable instantiate : TypeParams → Outcome InstantiatedType.

(** Lines 123-130: the definition after merging the parent's. *)
Definition mergeExtends (typeArgs : option TypeArgs) (typeDef : TypeDef)
    : Outcome TypeDef :=
  match td_extends typeDef with
  | Some extends =>
      if classIs typeDef "struct" then
        parent ← instantiate (processGenerics extends typeArgs);
        match td_fields (it_typeDef parent), td_fields typeDef with
        | Some parentFields, Some fields =>
            Ok (spreadTypeDef (it_typeDef parent) typeDef (parentFields ++ fields))
        | _, _ => Throw (TypeError "fields is not iterable")
        end
      else Ok typeDef
  | None => Ok typeDef
  end.

(** The [reduce] of line 134, from accumulator [s]. *)
Fixpoint sumFieldSizes (typeArgs : option TypeArgs)
    (fields : list TypeParams) (s : Z) : Outcome Z :=
  match fields with
  | [] => Ok s
  | f :: rest =>
      field ← instantiate (processGenerics f typeArgs);
      sumFieldSizes typeArgs rest (it_totalSize field + s)
  end.

(** Lines 132-139. *)
Definition determineSingleSize (typeName : string) (size : option Z)
    (typeArgs : option TypeArgs) (typeDef : TypeDef) : Outcome Z :=
  match truthyZ size with
  | Some s => Ok s
  | None =>
      match truthyZ (td_size typeDef) with
      | Some s => Ok s
      | None =>
          if classIs typeDef "struct" then
            match td_fields typeDef with
            | Some fields =>
                sum ← sumFieldSizes typeArgs fields 0;
                match truthyZ (Some sum) with
                | Some s => Ok s
                | None => Throw (UnresolvableSizeError typeName entryType)
                end
            | None => Throw (TypeError
                "Cannot read properties of undefined (reading 'reduce')")
            end
          else Throw (UnresolvableSizeError typeName entryType)
      end
  end.

(** Lines 141-146. *)
Definition checkedResult (typeParams : TypeParams) (typeDef : TypeDef)
    (singleSize : Z) : Outcome InstantiatedType :=
  let totalSize := singleSize * countOrOne (p_count typeParams) in
  match truthyZ (td_assertSize typeDef) with
  | Some assertSize =>
      if decide (totalSize = assertSize) then
        Ok (mkInstantiated typeDef totalSize singleSize (p_size typeParams)
              (p_count typeParams) (p_typeArgs typeParams) (p_type typeParams))
      else Throw (SizeAssertionError (p_type typeParams) totalSize assertSize)
  | None =>
      Ok (mkInstantiated typeDef totalSize singleSize (p_size typeParams)
            (p_count typeParams) (p_typeArgs typeParams) (p_type typeParams))
  end.

Definition instantiateBody (typeParams : TypeParams) : Outcome InstantiatedType :=
  match typeDefs !! p_type typeParams with
  | None => Throw (UnresolvedTypeError (p_type typeParams))
  | Some typeDef =>
      if classIs typeDef "alias" then
        instantiate (processGenerics (spreadAlias typeParams typeDef)
                       (p_typeArgs typeParams))
      else
        merged ← mergeExtends (p_typeArgs typeParams) typeDef;
        singleSize ← determineSingleSize (p_type typeParams)
                       (p_size typeParams) (p_typeArgs typeParams) merged;
        checkedResult typeParams merged singleSize
  end.
End Body.

Fixpoint instantiateType (fuel : nat) (typeParams : TypeParams)
    : Outcome InstantiatedType :=
  match fuel with
  | O => OutOfFuel
  | S fuel' => instantiateBody (instantiateType fuel') typeParams
  end.
End Instantiate.

(** ** The document projector *)

(** [seenTypes]: signature to the path recorded for it ([None] is a recorded
    [null]). *)
Abbreviation SeenTypes := (gmap string PathId).

(** [seenTypes[seenTypeId]] where it is truthy: a recorded array. *)
Definition hasSeen (seenTypes : SeenTypes) (seenTypeId : string)
    : option (list string) :=
  match seenTypes !! seenTypeId with
  | Some (Some firstPath) => Some firstPath
  | _ => None
  end.

(** [array.join(sep)] *)
Fixpoint join (sep : string) (parts : list string) : string :=
  match parts with
  | [] => ""
  | [x] => x
  | x :: rest => x +:+ sep +:+ join sep rest
  end.

(** [Object.values(typeArgs)] *)
Definition values (args : TypeArgs) : list string := map snd args.

(** Line 225: the signature under which a field's type is recorded. *)
Definition seenTypeId (fieldTypeName : string) (fieldTypeArgs : option TypeArgs)
    : string :=
  fieldTypeName +:+ "<"
    +:+ match fieldTypeArgs with
       | Some args => join "," (values args)
       | None => "undefined"
       end
    +:+ ">".

(** Lines 165-177 of [renderStructFieldType]: the value of its variable
    [typeStr] once the count suffix is appended.  Lines 178-183 escape it,
    append the endianness badge when the definition declares one, and wrap
    the whole in markup; they are not part of this definition. *)
Definition typeStr (instantiated : InstantiatedType) : string :=
  let def := it_typeDef instantiated in
  it_typeName instantiated
    +:+ (if classIs def "bitfield" || classIs def "enum"
        then ": " +:+ default "" (td_class def)
               +:+ pretty (it_singleSize instantiated * 8)
        else "")
    +:+ match it_typeArgs instantiated with
       | Some args => "<" +:+ join ", " (values args) +:+ ">"
       | None => ""
       end
    +:+ match it_variableSize instantiated with
       | Some variableSize => "(" +:+ pretty variableSize +:+ ")"
       | None => ""
       end
    +:+ match it_count instantiated with
       | Some count => "[" +:+ pretty count +:+ "]"
       | None => ""
       end.

(** [0x1 << i] on 32-bit integers. *)
Definition shl32 (i : nat) : Z :=
  let bits := Z.shiftl 1 (Z.of_nat i mod 32) in
  if decide (bits < 2 ^ 31) then bits else bits - 2 ^ 32.

(** One row of a struct table: the values its cells are rendered from.
    [row_backref] is the path the [?] link points to, [row_embedded] the
    nested table of the [embedded-type] row. *)
Record FieldRow (D : Type) : Type := mkFieldRow {
  row_name : option string;
  row_pathId : PathId;
  row_offset : option Z;
  row_type : InstantiatedType;
  row_backref : option (list string);
  row_embedded : option D
}.

Arguments mkFieldRow {D}.
Arguments row_name {D}.
Arguments row_pathId {D}.
Arguments row_offset {D}.
Arguments row_type {D}.
Arguments row_backref {D}.
Arguments row_embedded {D}.

Record FlagRow : Type := mkFlagRow {
  flag_name : option string;
  flag_pathId : PathId;
  flag_mask : Z
}.

Record OptionRow : Type := mkOptionRow {
  option_name : option string;
  option_pathId : PathId;
  option_value : Z
}.

#[warnings="-register-all"]
Inductive Doc : Type :=
  | StructTable (rows : list (FieldRow Doc))
  | BitfieldTable (rows : list FlagRow)
  | EnumTable (rows : list OptionRow).

Definition renderBitfieldAsTable (instantiatedType : InstantiatedType)
    (pathId : PathId) : Outcome Doc :=
  match td_bits (it_typeDef instantiatedType) with
  | Some bits =>
      Ok (BitfieldTable
            (imap (λ i bit,
               mkFlagRow (bit_name bit) (joinPathId pathId (bit_name bit)) (shl32 i))
               bits))
  | None => Throw (TypeError "Cannot read properties of undefined (reading 'map')")
  end.

Definition renderEnumAsTable (instantiatedType : InstantiatedType)
    (pathId : PathId) : Outcome Doc :=
  match td_options (it_typeDef instantiatedType) with
  | Some options =>
      Ok (EnumTable
            (imap (λ i option,
               mkOptionRow (opt_name option) (joinPathId pathId (opt_name option))
                 (default (Z.of_nat i) (opt_value option)))
               options))
  | None => Throw (TypeError "Cannot read properties of undefined (reading 'map')")
  end.

(** Whether a field's resolved type is shown with an embedded type: its
    definition has a class, or it is one of the two pointer intrinsics. *)
Definition isPointer (fieldTypeName : string) : bool :=
  bool_decide (fieldTypeName = "ptr32") || bool_decide (fieldTypeName = "ptr64").

Section Render.
Variable typeDefs : gmap string TypeDef.
Variable entryType : string.
Variable showOffsets : bool.

Section Body.
(** [instantiateType] and the recursive call of [renderTypeAsTable]. *)
Variable instantiate : TypeParams → Outcome InstantiatedType.
Variable renderType :
  InstantiatedType → PathId → SeenTypes → Outcome (Doc * SeenTypes).

(** Lines 231-236. *)
Definition embeddedTypeOf (instantiatedFieldType : InstantiatedType)
    : Outcome (option InstantiatedType) :=
  match truthyStr (td_class (it_typeDef instantiatedFieldType)) with
  | Some _ => Ok (Some instantiatedFieldType)
  | None =>
      if isPointer (it_typeName instantiatedFieldType) then
        match it_typeArgs instantiatedFieldType with
        | Some fieldTypeArgs =>
            pointee ← instantiate
              (mkParams None (default "undefined" (head (values fieldTypeArgs)))
                 None None None None None);
            Ok (Some pointee)
        | None => Throw (TypeError "Cannot convert undefined or null to object")
        end
      else Ok None
  end.

(** The callback of [fields.map] (lines 218-265) on one field, from the
    running [offset] and the current [seenTypes]. *)
Definition renderField (typeArgs : option TypeArgs) (pathId : PathId)
    (field : TypeParams) (offset : Z) (seenTypes : SeenTypes)
    : Outcome (FieldRow Doc * Z * SeenTypes) :=
  let fieldPathId := joinPathId pathId (p_name field) in
  let fieldOffset := offset in
  instantiatedFieldType ← instantiate (processGenerics field typeArgs);
  let offset := offset + it_totalSize instantiatedFieldType in
  let id := seenTypeId (it_typeName instantiatedFieldType)
              (it_typeArgs instantiatedFieldType) in
  let hasSeenType := hasSeen seenTypes id in
  let seenTypes :=
    match hasSeenType with
    | Some _ => seenTypes
    | None => <[id := fieldPathId]> seenTypes
    end in
  embeddedType ← embeddedTypeOf instantiatedFieldType;
  let row := mkFieldRow (p_name field) fieldPathId
               (if showOffsets then Some fieldOffset else None)
               instantiatedFieldType in
  match embeddedType, hasSeenType with
  | Some _, Some firstPath => Ok (row (Some firstPath) None, offset, seenTypes)
  | Some embedded, None =>
      '(table, seenTypes) ← renderType embedded fieldPathId seenTypes;
      Ok (row None (Some table), offset, seenTypes)
  | None, _ => Ok (row None None, offset, seenTypes)
  end.

(** [fields.map(...)], left to right. *)
Fixpoint renderFields (typeArgs : option TypeArgs) (pathId : PathId)
    (fields : list TypeParams) (offset : Z) (seenTypes : SeenTypes)
    : Outcome (list (FieldRow Doc) * SeenTypes) :=
  match fields with
  | [] => Ok ([], seenTypes)
  | field :: rest =>
      '(row, offset, seenTypes) ←
        renderField typeArgs pathId field offset seenTypes;
      '(rows, seenTypes) ← renderFields typeArgs pathId rest offset seenTypes;
      Ok (row :: rows, seenTypes)
  end.

Definition renderStructAsTable (instantiatedType : InstantiatedType)
    (pathId : PathId) (seenTypes : SeenTypes) : Outcome (Doc * SeenTypes) :=
  match td_fields (it_typeDef instantiatedType) with
  | Some fields =>
      '(rows, seenTypes) ←
        renderFields (it_typeArgs instantiatedType) pathId fields 0 seenTypes;
      Ok (StructTable rows, seenTypes)
  | None => Throw (TypeError "Cannot read properties of undefined (reading 'map')")
  end.

(** The [default] branch interpolates [typeDef.class], and no [typeDef]
    is in scope in [renderTypeAsTable]: evaluating the message throws a
    [ReferenceError] before the [Error] is built. *)
Definition renderTypeBody (instantiatedType : InstantiatedType)
    (pathId : PathId) (seenTypes : SeenTypes) : Outcome (Doc * SeenTypes) :=
  let def := it_typeDef instantiatedType in
  if classIs def "struct" then
    renderStructAsTable instantiatedType pathId seenTypes
  else if classIs def "bitfield" then
    table ← renderBitfieldAsTable instantiatedType pathId;
    Ok (table, seenTypes)
  else if classIs def "enum" then
    table ← renderEnumAsTable instantiatedType pathId;
    Ok (table, seenTypes)
  else Throw (ReferenceError "typeDef").
End Body.

Fixpoint renderTypeAsTable (fuel : nat) (instantiatedType : InstantiatedType)
    (pathId : PathId) (seenTypes : SeenTypes) : Outcome (Doc * SeenTypes) :=
  match fuel with
  | O => OutOfFuel
  | S fuel' =>
      renderTypeBody (instantiateType typeDefs entryType fuel')
        (renderTypeAsTable fuel') instantiatedType pathId seenTypes
  end.
End Render.

(** The whole of [renderStructYaml] after the options are parsed: the
    registry is the intrinsics overlaid with the page's definitions, and
    [seenTypes] starts empty. *)
Definition renderStructYaml (fuel : nat) (typeDefsArg : gmap string TypeDef)
    (entryType : string) (showOffsets : bool) (id : option string)
    : Outcome Doc :=
  let typeDefs := typeDefsArg ∪ INTRINSIC_TYPE_DEFS in
  entry ← instantiateType typeDefs entryType fuel
            (mkParams None entryType None None None None None);
  '(table, _) ← renderTypeAsTable typeDefs entryType showOffsets fuel entry
                  (Some [default "" (truthyStr id)]) ∅;
  Ok table.

(** ** Hexadecimal cells *)

(** [renderHex] shows a number as [0x] followed by
    [num.toString(16).toUpperCase()]; the embedding is for integers and
    gives the text of the cell. *)
Definition hexDigit (d : Z) : ascii :=
  ascii_of_N (Z.to_N (if decide (d < 10) then 48 + d else 87 + d)).

(** The digits of [n], most significant first, in front of [acc]. *)
Fixpoint hexDigits (fuel : nat) (n : Z) (acc : string) : string :=
  match fuel with
  | O => acc
  | S fuel' =>
      let acc' := String (hexDigit (n mod 16)) acc in
      if decide (n / 16 = 0) then acc' else hexDigits fuel' (n / 16) acc'
  end.

(** [num.toString(16)] for an integer. *)
Definition toString16 (num : Z) : string :=
  if decide (num < 0)
  then "-" +:+ hexDigits (S (Z.to_nat (Z.log2 (- num)))) (- num) ""
  else hexDigits (S (Z.to_nat (Z.log2 num))) num "".

Definition upperAscii (c : ascii) : ascii :=
  let n := N_of_ascii c in
  if ((97 <=? n) && (n <=? 122))%N then ascii_of_N (n - 32) else c.

(** [s.toUpperCase()] on ASCII text. *)
Fixpoint toUpperCase (s : string) : string :=
  match s with
  | EmptyString => EmptyString
  | String c rest => String (upperAscii c) (toUpperCase rest)
  end.

Definition renderHex (num : Z) : string :=
  "0x" +:+ toUpperCase (toString16 num).

(** ** Vocabulary of the statements *)

(** A bare request [{type, typeArgs, size, count}]. *)
Definition request (type : string) (typeArgs : option TypeArgs)
    (size count : option Z) : TypeParams :=
  mkParams None type typeArgs size count None None.

(** Line 120: the request an alias request is re-instantiated as. *)
Definition aliasHop (typeParams : TypeParams) (typeDef : TypeDef) : TypeParams :=
  processGenerics (spreadAlias typeParams typeDef) (p_typeArgs typeParams).

Definition sumTotalSizes (instantiated : list InstantiatedType) : Z :=
  foldr Z.add 0 (it_totalSize <$> instantiated).

(** [fields] instantiate, one by one, to [instantiated]. *)
Definition fieldsInstantiate (instantiate : TypeParams → Outcome InstantiatedType)
    (typeArgs : option TypeArgs) (fields : list TypeParams)
    (instantiated : list InstantiatedType) : Prop :=
  Forall2 (λ f r, instantiate (processGenerics f typeArgs) = Ok r)
    fields instantiated.

(** Whether lines 231-236 give the field an embedded type. *)
Definition hasEmbeddedType (instantiated : InstantiatedType) : bool :=
  bool_decide (is_Some (truthyStr (td_class (it_typeDef instantiated))))
  || isPointer (it_typeName instantiated).

(** A projection step keeps every recorded path. *)
Definition keepsSeen
    (render : InstantiatedType → PathId → SeenTypes → Outcome (Doc * SeenTypes))
    : Prop :=
  ∀ instantiatedType pathId seenTypes table seenTypes',
    render instantiatedType pathId seenTypes = Ok (table, seenTypes') →
    ∀ id firstPath, hasSeen seenTypes id = Some firstPath →
                    hasSeen seenTypes' id = Some firstPath.

(** A string ends with a suffix. *)
Definition endsWith (s suffix : string) : Prop := ∃ prefix, s = prefix +:+ suffix.

(** ** The claims as the specification words them

    Where the program departs from a sentence of the specification, the
    sentence is kept here in its own words, to be compared with the
    program. *)



(** [totalSize == singleSize * (count ?? 1)] *)
Definition sizeInvariantAsStated (r : InstantiatedType) : Prop :=
  it_totalSize r = it_singleSize r * default 1 (it_count r).

(** An [assertSize] that is set is compared with the total size. *)
Definition assertionAsStated (typeDefs : gmap string TypeDef)
    (entryType : string) (fuel : nat) (typeParams : TypeParams) : Prop :=
  ∀ typeDef merged singleSize assertSize,
    typeDefs !! p_type typeParams = Some typeDef →
    classIs typeDef "alias" = false →
    mergeExtends (instantiateType typeDefs entryType fuel)
      (p_typeArgs typeParams) typeDef = Ok merged →
    determineSingleSize entryType (instantiateType typeDefs entryType fuel)
      (p_type typeParams) (p_size typeParams) (p_typeArgs typeParams) merged
      = Ok singleSize →
    td_assertSize typeDef = Some assertSize →
    let totalSize := singleSize * countOrOne (p_count typeParams) in
    (totalSize ≠ assertSize →
       instantiateType typeDefs entryType (S fuel) typeParams
         = Throw (SizeAssertionError (p_type typeParams) totalSize assertSize))
    ∧ (totalSize = assertSize →
       ∃ r, instantiateType typeDefs entryType (S fuel) typeParams = Ok r).

(** A request with count 0 has a total size equal to its single size, and
    the 0 is echoed in the result. *)
Definition zeroCountAsStated (typeDefs : gmap string TypeDef)
    (entryType : string) (fuel : nat) (typeParams : TypeParams) : Prop :=
  p_count typeParams = Some 0 →
  ∀ r, instantiateType typeDefs entryType fuel typeParams = Ok r →
       it_totalSize r = it_singleSize r ∧ it_count r = Some 0.

(** Of two fields with the same type name and type arguments, the first is
    expanded and the later one is a back-reference to the first one's path,
    never expanded again. *)
Definition dedupAsStated (typeDefs : gmap string TypeDef) (entryType : string)
    (showOffsets : bool) (fuel : nat) (instantiatedType : InstantiatedType)
    (pathId : PathId) : Prop :=
  ∀ rows seenTypes (i j : nat) first later,
    renderTypeAsTable typeDefs entryType showOffsets fuel instantiatedType
      pathId ∅ = Ok (StructTable rows, seenTypes) →
    (i < j)%nat →
    rows !! i = Some first →
    rows !! j = Some later →
    it_typeName (row_type first) = it_typeName (row_type later) →
    it_typeArgs (row_type first) = it_typeArgs (row_type later) →
    is_Some (row_embedded first) →
    row_embedded later = None ∧ row_backref later = row_pathId first.

(** Bindings as the specification has them: a mapping from placeholder to
    type name, in which a name is replaced only if a binding exists. *)
Definition resolveBinding (bindings : gmap string string) (name : string)
    : string :=
  default name (bindings !! name).

(** The type arguments an alias declares, with their values resolved by the
    bindings in effect: one layer of composition. *)
Definition composeBindings (bindings : gmap string string) (args : TypeArgs)
    : TypeArgs :=
  map (λ kv, (kv.1, resolveBinding bindings kv.2)) args.

(** What a request through aliases returns, the struct instantiated directly
    with the composed bindings returns. *)
Definition aliasChainAsStated (typeDefs : gmap string TypeDef)
    (entryType : string) (typeParams : TypeParams) (structName : string)
    (composed : TypeArgs) : Prop :=
  ∀ fuel r,
    instantiateType typeDefs entryType fuel typeParams = Ok r →
    ∃ fuel',
      instantiateType typeDefs entryType fuel'
        (request structName (Some composed) (p_size typeParams)
           (p_count typeParams)) = Ok r.

(** ** Example schemas *)

Definition field (name type : string) : TypeParams :=
  mkParams (Some name) type None None None None None.

Definition structDef (fields : list TypeParams) (extends : option TypeParams)
    (assertSize : option Z) (comments : option Comments) : TypeDef :=
  mkTypeDef (Some "struct") None None None None None None (Some fields)
    extends assertSize None None None comments.

Definition bitfieldDef (size : Z) (bits : list string) : TypeDef :=
  mkTypeDef (Some "bitfield") (Some size) None None None None None None None
    None (Some ((λ name, mkBit (Some name)) <$> bits)) None None None.

Definition aliasDef (type : string) (typeArgs : option TypeArgs)
    (count : option Z) : TypeDef :=
  mkTypeDef (Some "alias") None None None (Some type) typeArgs count None None
    None None None None None.

(** The end-to-end example of the specification. *)
Definition headerDef : TypeDef :=
  structDef [field "magic" "uint32"; field "flags" "Flags"] None (Some 8) None.

Definition flagsDef : TypeDef := bitfieldDef 4 ["ready"; "error"].

Definition packedDef : TypeDef :=
  structDef [field "a" "uint32"; field "b" "uint16"; field "c" "uint8";
             field "d" "uint8"] None None None.

Definition childDef : TypeDef :=
  structDef [field "extra" "uint16"] (Some (request "Header" None None None))
    (Some 10) (Some [("en", "A header with an extra word")]).

Definition boxDef : TypeDef := structDef [field "value" "T"] None None None.

Definition twiceDef : TypeDef :=
  structDef [field "first" "Flags"; field "second" "Flags"] None None None.

Definition anonymousDef : TypeDef :=
  structDef [mkParams None "Flags" None None None None None;
             field "second" "Flags"] None None None.

Definition uncheckedDef : TypeDef :=
  structDef [field "a" "uint32"] None (Some 0) None.

Definition blobDef : TypeDef :=
  mkTypeDef (Some "union") (Some 4) None None None None None None None None
    None None None None.

Definition exampleDefs : gmap string TypeDef :=
  list_to_map [
    ("Header", headerDef);
    ("Flags", flagsDef);
    ("Packed", packedDef);
    ("Child", childDef);
    ("Box", boxDef);
    ("BoxOf", aliasDef "Box" (Some [("T", "U")]) None);
    ("Boxed", aliasDef "BoxOf" (Some [("U", "V")]) None);
    ("Twice", twiceDef);
    ("Anonymous", anonymousDef);
    ("Vec3", aliasDef "float" None (Some 3));
    ("Empty", structDef [] None None None);
    ("Unchecked", uncheckedDef);
    ("Blob", blobDef)
  ] ∪ INTRINSIC_TYPE_DEFS.

Definition instanceOf (typeName : string) (typeDef : TypeDef) (size : Z)
    : InstantiatedType :=
  mkInstantiated typeDef size size None None None typeName.

Definition uint32Instance : InstantiatedType :=
  instanceOf "uint32" (primitiveDef (Some 4) None) 4.

Definition uint16Instance : InstantiatedType :=
  instanceOf "uint16" (primitiveDef (Some 2) None) 2.

Definition uint8Instance : InstantiatedType :=
  instanceOf "uint8" (primitiveDef (Some 1) None) 1.

Definition flagsInstance : InstantiatedType := instanceOf "Flags" flagsDef 4.

Definition headerInstance : InstantiatedType := instanceOf "Header" headerDef 8.

Definition flagsTable (pathId : PathId) : Doc :=
  BitfieldTable [mkFlagRow (Some "ready") (joinPathId pathId (Some "ready")) 1;
                 mkFlagRow (Some "error") (joinPathId pathId (Some "error")) 2].

Definition packedRows : list (FieldRow Doc) :=
  [mkFieldRow (Some "a") (Some [""; "a"]) (Some 0) uint32Instance None None;
   mkFieldRow (Some "b") (Some [""; "b"]) (Some 4) uint16Instance None None;
   mkFieldRow (Some "c") (Some [""; "c"]) (Some 6) uint8Instance None None;
   mkFieldRow (Some "d") (Some [""; "d"]) (Some 7) uint8Instance None None].

Definition packedSeen : SeenTypes :=
  list_to_map [("uint32<undefined>", Some [""; "a"]);
               ("uint16<undefined>", Some [""; "b"]);
               ("uint8<undefined>", Some [""; "c"])].

Definition twiceRows : list (FieldRow Doc) :=
  [mkFieldRow (Some "first") (Some [""; "first"]) (Some 0) flagsInstance None
     (Some (flagsTable (Some [""; "first"])));
   mkFieldRow (Some "second") (Some [""; "second"]) (Some 4) flagsInstance
     (Some [""; "first"]) None].

Definition twiceSeen : SeenTypes :=
  {["Flags<undefined>" := Some [""; "first"]]}.

(** The rows of [Anonymous]: the first field has no name, hence no path. *)
Definition anonymousRows : list (FieldRow Doc) :=
  [mkFieldRow None None (Some 0) flagsInstance None (Some (flagsTable None));
   mkFieldRow (Some "second") (Some [""; "second"]) (Some 4) flagsInstance
     None (Some (flagsTable (Some [""; "second"])))].

(** ** Reading a hexadecimal cell *)

(** The value of one of the characters [0]-[9] and [A]-[F]. *)
Definition hexDigitValue (c : ascii) : option Z :=
  let code := Z.of_N (N_of_ascii c) in
  if decide (48 ≤ code ≤ 57) then Some (code - 48)
  else if decide (65 ≤ code ≤ 70) then Some (code - 55)
  else None.

(** The value of upper-case hexadecimal digits read after the value [v]. *)
Fixpoint hexValueFrom (digits : string) (v : Z) : option Z :=
  match digits with
  | EmptyString => Some v
  | String c rest => d ← hexDigitValue c; hexValueFrom rest (16 * v + d)
  end.

(** The number written as [0x], an optional [-], and upper-case
    hexadecimal digits. *)
Definition parseHex (text : string) : option Z :=
  match text with
  | String "0" (String "x" (String "-" digits)) =>
      Z.opp <$> hexValueFrom digits 0
  | String "0" (String "x" digits) => hexValueFrom digits 0
  | _ => None
  end.

(** ** A table without its offsets *)

(** A row with its offset cell removed and its nested table stripped. *)
Definition stripRow (strip : Doc → Doc) (row : FieldRow Doc) : FieldRow Doc :=
  mkFieldRow (row_name row) (row_pathId row) None (row_type row)
    (row_backref row) (option_map strip (row_embedded row)).

(** The table with every offset cell, also of the nested tables, removed.
    This is not a function of the source: it is what the table rendered
    with offsets is compared through with the one rendered without.  The
    tables here are the rows; the widths of the header cells and the
    [colspan] of the [embedded-type] row, which the source also derives
    from [showOffsets], are attributes of the markup and appear in neither. *)
Fixpoint stripOffsets (table : Doc) : Doc :=
  match table with
  | StructTable rows => StructTable (map (stripRow stripOffsets) rows)
  | BitfieldTable rows => BitfieldTable rows
  | EnumTable rows => EnumTable rows
  end.

(** ** Further example schemas *)

(** [Broken] has a field of an unregistered type, [Loop] is an alias of
    itself, [Node] contains itself, [Derived] extends [Header] and declares
    no [assertSize] of its own. *)
Definition brokenDef : TypeDef :=
  structDef [field "a" "uint32"; field "b" "Missing"; field "c" "uint8"]
    None None None.

Definition nodeDef : TypeDef :=
  structDef [field "next" "Node"; field "value" "uint32"] None None None.

Definition derivedDef : TypeDef :=
  structDef [] (Some (request "Header" None None None)) None None.

Definition furtherDefs : gmap string TypeDef :=
  list_to_map [
    ("Broken", brokenDef);
    ("Loop", aliasDef "Loop" None None);
    ("Node", nodeDef);
    ("Derived", derivedDef)
  ] ∪ exampleDefs.

Definition kindDef : TypeDef :=
  mkTypeDef (Some "enum") (Some 2) None None None None None None None None None
    (Some [mkOption (Some "none") None; mkOption (Some "solid") (Some 5);
           mkOption (Some "liquid") None]) None None.

Definition kindInstance : InstantiatedType := instanceOf "Kind" kindDef 2.

(** A pointer field to a primitive. *)
Definition pointerField : TypeParams :=
  mkParams (Some "data") "ptr32" (Some [("T", "uint32")]) None None None None.

(** [Boxed3] is [Boxed] with a count of its own. *)
Definition countedDefs : gmap string TypeDef :=
  {["Boxed3" := aliasDef "BoxOf" (Some [("U", "V")]) (Some 3)]} ∪ exampleDefs.

Definition boxInstance : InstantiatedType :=
  mkInstantiated boxDef 4 4 None None (Some [("T", "uint32")]) "Box".

(** * Properties *)

(** ** Outcomes *)

Lemma bind_Ok {A B : Type} (m : Outcome A) (k : A → Outcome B) (b : B) :
  m ≫= k = Ok b ↔ ∃ a, m = Ok a ∧ k a = Ok b.
Proof.
  split.
  - destruct m as [a| |]; simpl; [eauto | discriminate..].
  - intros (a & -> & Hk). exact Hk.
Qed.

Lemma bind_terminated {A B : Type} (m : Outcome A) (k : A → Outcome B) :
  terminated (m ≫= k) → terminated m.
Proof. destruct m; simpl; unfold terminated; congruence. Qed.

Lemma truthyZ_Some (x : option Z) (z : Z) :
  truthyZ x = Some z ↔ x = Some z ∧ z ≠ 0.
Proof.
  unfold truthyZ. destruct x as [y|]; [|intuition congruence].
  destruct (decide (y = 0)); intuition congruence.
Qed.

Lemma classIs_true (typeDef : TypeDef) (cls : string) :
  classIs typeDef cls = true ↔ td_class typeDef = Some cls.
Proof. unfold classIs. apply bool_decide_eq_true. Qed.

Lemma classIs_struct_not_alias (typeDef : TypeDef) :
  classIs typeDef "struct" = true → classIs typeDef "alias" = false.
Proof.
  rewrite classIs_true. intros H. unfold classIs.
  apply bool_decide_eq_false. rewrite H. discriminate.
Qed.

(** ** Generic substitution *)

Lemma lookupArg_elem_of (typeArgs : TypeArgs) (key v : string) :
  lookupArg typeArgs key = Some v → (key, v) ∈ typeArgs.
Proof.
  induction typeArgs as [|[k w] rest IH]; simpl; [done|].
  case_decide as Hk.
  - intros [= ->]. subst. apply elem_of_cons. by left.
  - intros H. apply elem_of_cons. right. by apply IH.
Qed.

Lemma lookupArg_app (front back : TypeArgs) (key : string) :
  lookupArg (front ++ back) key
    = match lookupArg front key with
      | Some v => Some v
      | None => lookupArg back key
      end.
Proof.
  induction front as [|[k w] rest IH]; simpl; [done|]. by case_decide.
Qed.

Lemma lookupArg_substArgs (bindings args : TypeArgs) (key : string) :
  lookupArg (substArgs bindings args) key
    = substName bindings <$> lookupArg args key.
Proof.
  unfold substArgs. induction args as [|[k w] rest IH]; simpl; [done|].
  by case_decide.
Qed.

Lemma substName_nonempty (bindings : TypeArgs) (v : string) :
  v ≠ "" → substName bindings v ≠ "".
Proof.
  intros Hv. unfold substName, truthyStr.
  destruct (lookupArg bindings v) as [w|]; [|done]. by case_decide.
Qed.

Lemma substArgs_unbound (bindings args : TypeArgs) :
  (∀ k v, (k, v) ∈ args → truthyStr (lookupArg bindings v) = None) →
  substArgs bindings args = args.
Proof.
  unfold substArgs. induction args as [|[k w] rest IH]; intros H; simpl; [done|].
  rewrite IH.
  - unfold substName. rewrite (H k w); [done|]. apply elem_of_cons. by left.
  - intros k' v' Hin. apply (H k'). apply elem_of_cons. by right.
Qed.

Lemma lookupArg_list_to_map (typeArgs : TypeArgs) (key : string) :
  lookupArg typeArgs key = (list_to_map typeArgs : gmap string string) !! key.
Proof.
  induction typeArgs as [|[k v] rest IH]; simpl; [done|].
  case_decide as Hk.
  - subst. by rewrite lookup_insert_eq.
  - by rewrite lookup_insert_ne.
Qed.

Lemma lookupArg_not_key (typeArgs : TypeArgs) (key : string) :
  key ∉ map fst typeArgs → lookupArg typeArgs key = None.
Proof.
  induction typeArgs as [|[k v] rest IH]; simpl; [done|].
  intros Hnotin. apply not_elem_of_cons in Hnotin as [Hne Hnotin].
  rewrite decide_False by done. by apply IH.
Qed.

(** With no binding to the empty name, the substitution of the program is
    the resolution of the specification. *)
Lemma substName_resolveBinding (bindings : TypeArgs) (name : string) :
  (∀ k v, (k, v) ∈ bindings → v ≠ "") →
  substName bindings name = resolveBinding (list_to_map bindings) name.
Proof.
  intros Hne. unfold substName, resolveBinding.
  rewrite <- lookupArg_list_to_map.
  destruct (lookupArg bindings name) as [v|] eqn:Hv; [|done].
  apply lookupArg_elem_of, Hne in Hv. simpl. by rewrite decide_False.
Qed.

Lemma substArgs_composeBindings (bindings args : TypeArgs) :
  (∀ k v, (k, v) ∈ bindings → v ≠ "") →
  substArgs bindings args = composeBindings (list_to_map bindings) args.
Proof.
  intros Hne. unfold substArgs, composeBindings. apply map_ext.
  intros [k v]. simpl. by rewrite substName_resolveBinding.
Qed.

Lemma composeBindings_nonempty (bindings args : TypeArgs) :
  (∀ k v, (k, v) ∈ bindings → v ≠ "") →
  (∀ k v, (k, v) ∈ args → v ≠ "") →
  ∀ k v, (k, v) ∈ composeBindings (list_to_map bindings) args → v ≠ "".
Proof.
  intros Hbindings Hargs k v. rewrite <- substArgs_composeBindings by done.
  unfold substArgs. intros ([k' v'] & [= -> ->] & Hin)%list_elem_of_fmap.
  apply substName_nonempty. by eapply Hargs.
Qed.

Lemma composeBindings_keys (bindings : gmap string string) (args : TypeArgs) :
  map fst (composeBindings bindings args) = map fst args.
Proof. unfold composeBindings. rewrite map_map. by apply map_ext. Qed.

(** ** The steps of the instantiator *)

Section InstantiateFacts.
Variable typeDefs : gmap string TypeDef.
Variable entryType : string.

Abbreviation instantiateType := (instantiateType typeDefs entryType).
Abbreviation determineSingleSize := (determineSingleSize entryType).

Lemma instantiateType_alias (fuel : nat) (typeParams : TypeParams) (typeDef : TypeDef) :
  typeDefs !! p_type typeParams = Some typeDef →
  classIs typeDef "alias" = true →
  instantiateType (S fuel) typeParams
    = instantiateType fuel (aliasHop typeParams typeDef).
Proof. intros Hdef Halias. simpl. unfold instantiateBody. by rewrite Hdef, Halias. Qed.

Lemma instantiateType_resolved (fuel : nat) (typeParams : TypeParams) (typeDef : TypeDef) :
  typeDefs !! p_type typeParams = Some typeDef →
  classIs typeDef "alias" = false →
  instantiateType (S fuel) typeParams
    = (merged ← mergeExtends (instantiateType fuel) (p_typeArgs typeParams) typeDef;
       singleSize ← determineSingleSize (instantiateType fuel) (p_type typeParams)
                      (p_size typeParams) (p_typeArgs typeParams) merged;
       checkedResult typeParams merged singleSize).
Proof. intros Hdef Halias. simpl. unfold instantiateBody. by rewrite Hdef, Halias. Qed.

Lemma checkedResult_Ok (typeParams : TypeParams) (typeDef : TypeDef)
    (singleSize : Z) (r : InstantiatedType) :
  checkedResult typeParams typeDef singleSize = Ok r →
  r = mkInstantiated typeDef (singleSize * countOrOne (p_count typeParams))
        singleSize (p_size typeParams) (p_count typeParams)
        (p_typeArgs typeParams) (p_type typeParams).
Proof.
  unfold checkedResult. destruct (truthyZ (td_assertSize typeDef)).
  - case_decide; congruence.
  - congruence.
Qed.

Lemma mergeExtends_class (instantiate : TypeParams → Outcome InstantiatedType)
    (typeArgs : option TypeArgs) (typeDef merged : TypeDef) :
  mergeExtends instantiate typeArgs typeDef = Ok merged →
  td_class merged = td_class typeDef.
Proof.
  unfold mergeExtends. destruct (td_extends typeDef) as [extends|]; [|congruence].
  destruct (classIs typeDef "struct") eqn:Hstruct; [|congruence].
  apply classIs_true in Hstruct.
  intros (parent & _ & H)%bind_Ok.
  destruct (td_fields (it_typeDef parent)), (td_fields typeDef); try discriminate.
  injection H as <-. simpl. by rewrite Hstruct.
Qed.

Lemma sumFieldSizes_Ok (instantiate : TypeParams → Outcome InstantiatedType)
    (typeArgs : option TypeArgs) (fields : list TypeParams) (s total : Z) :
  sumFieldSizes instantiate typeArgs fields s = Ok total ↔
  ∃ instantiated, fieldsInstantiate instantiate typeArgs fields instantiated
                  ∧ total = sumTotalSizes instantiated + s.
Proof.
  unfold fieldsInstantiate, sumTotalSizes.
  revert s total. induction fields as [|f rest IH]; intros s total; simpl.
  - split.
    + intros [= <-]. exists []. split; [constructor | simpl; lia].
    + intros (rs & Hall & ->). inversion Hall; subst. done.
  - rewrite bind_Ok. split.
    + intros (r & Hr & Hrest). apply IH in Hrest as (rs & Hall & ->).
      exists (r :: rs). split; [by constructor | csimpl; lia].
    + intros (rs & Hall & ->). inversion Hall as [|? r ? rs' Hr Hall']; subst.
      exists r. split; [done|]. apply IH. exists rs'. split; [done | csimpl; lia].
Qed.

(** The instantiator reads only [type], [typeArgs], [size] and [count] of
    the object it is given. *)
Lemma instantiateType_request (fuel : nat) (typeParams : TypeParams) :
  instantiateType fuel typeParams
    = instantiateType fuel (request (p_type typeParams) (p_typeArgs typeParams)
                              (p_size typeParams) (p_count typeParams)).
Proof.
  revert typeParams. induction fuel as [|fuel IH]; [done|].
  intros [name type typeArgs size count labels comments].
  simpl. unfold instantiateBody. simpl.
  destruct (typeDefs !! type) as [typeDef|]; [|done].
  destruct (classIs typeDef "alias"); [|reflexivity].
  rewrite (IH (processGenerics (spreadAlias (mkParams _ _ _ _ _ _ _) typeDef) _)).
  rewrite (IH (processGenerics (spreadAlias (request _ _ _ _) typeDef) _)).
  f_equal. destruct typeArgs; reflexivity.
Qed.

(** A result names a registered, non-alias definition and has its class. *)
Lemma instantiateType_class (fuel : nat) (typeParams : TypeParams)
    (r : InstantiatedType) :
  instantiateType fuel typeParams = Ok r →
  ∃ typeDef, typeDefs !! it_typeName r = Some typeDef
             ∧ classIs typeDef "alias" = false
             ∧ td_class (it_typeDef r) = td_class typeDef.
Proof.
  revert typeParams. induction fuel as [|fuel IH]; intros typeParams; [done|].
  destruct (typeDefs !! p_type typeParams) as [typeDef|] eqn:Hdef;
    [|simpl; unfold instantiateBody; by rewrite Hdef].
  destruct (classIs typeDef "alias") eqn:Halias.
  - rewrite (instantiateType_alias _ _ _ Hdef Halias). apply IH.
  - rewrite (instantiateType_resolved _ _ _ Hdef Halias).
    intros (merged & Hmerged & (s & _ & ->%checkedResult_Ok)%bind_Ok)%bind_Ok.
    exists typeDef. simpl. eauto using mergeExtends_class.
Qed.
(** More fuel does not change an outcome that was reached. *)
Section Monotone.
Variables instantiate instantiate' : TypeParams → Outcome InstantiatedType.
Hypothesis instantiate_mono :
  ∀ typeParams, terminated (instantiate typeParams) →
                instantiate' typeParams = instantiate typeParams.

Lemma mergeExtends_mono (typeArgs : option TypeArgs) (typeDef : TypeDef) :
  terminated (mergeExtends instantiate typeArgs typeDef) →
  mergeExtends instantiate' typeArgs typeDef
    = mergeExtends instantiate typeArgs typeDef.
Proof.
  unfold mergeExtends. destruct (td_extends typeDef) as [extends|]; [|done].
  destruct (classIs typeDef "struct"); [|done].
  intros Hterm. by rewrite (instantiate_mono _ (bind_terminated _ _ Hterm)).
Qed.

Lemma sumFieldSizes_mono (typeArgs : option TypeArgs)
    (fields : list TypeParams) (s : Z) :
  terminated (sumFieldSizes instantiate typeArgs fields s) →
  sumFieldSizes instantiate' typeArgs fields s
    = sumFieldSizes instantiate typeArgs fields s.
Proof.
  revert s. induction fields as [|f rest IH]; intros s; [done|]. simpl.
  intros Hterm. rewrite (instantiate_mono _ (bind_terminated _ _ Hterm)).
  destruct (instantiate (processGenerics f typeArgs)); [|done..].
  by apply IH.
Qed.

Lemma determineSingleSize_mono (typeName : string) (size : option Z)
    (typeArgs : option TypeArgs) (typeDef : TypeDef) :
  terminated (determineSingleSize instantiate typeName size typeArgs typeDef) →
  determineSingleSize instantiate' typeName size typeArgs typeDef
    = determineSingleSize instantiate typeName size typeArgs typeDef.
Proof.
  unfold determineSingleSize. destruct (truthyZ size); [done|].
  destruct (truthyZ (td_size typeDef)); [done|].
  destruct (classIs typeDef "struct"); [|done].
  destruct (td_fields typeDef) as [fields|]; [|done].
  intros Hterm. by rewrite (sumFieldSizes_mono _ _ _ (bind_terminated _ _ Hterm)).
Qed.

Lemma instantiateBody_mono (typeParams : TypeParams) :
  terminated (instantiateBody typeDefs entryType instantiate typeParams) →
  instantiateBody typeDefs entryType instantiate' typeParams
    = instantiateBody typeDefs entryType instantiate typeParams.
Proof.
  unfold instantiateBody.
  destruct (typeDefs !! p_type typeParams) as [typeDef|]; [|done].
  destruct (classIs typeDef "alias"); [apply instantiate_mono|].
  intros Hterm. rewrite (mergeExtends_mono _ _ (bind_terminated _ _ Hterm)).
  destruct (mergeExtends instantiate _ typeDef) as [merged| |]; [|done..].
  simpl in *.
  by rewrite (determineSingleSize_mono _ _ _ _ (bind_terminated _ _ Hterm)).
Qed.
End Monotone.

Lemma instantiateType_mono (fuel fuel' : nat) (typeParams : TypeParams) :
  (fuel ≤ fuel')%nat →
  terminated (instantiateType fuel typeParams) →
  instantiateType fuel' typeParams = instantiateType fuel typeParams.
Proof.
  revert fuel' typeParams.
  induction fuel as [|fuel IH]; intros fuel' typeParams Hle; [done|].
  destruct fuel' as [|fuel']; [lia|]. simpl.
  apply instantiateBody_mono. intros p. apply IH. lia.
Qed.

(** A request has at most one outcome, whatever the fuel. *)
Lemma instantiateType_deterministic (fuel fuel' : nat) (typeParams : TypeParams) :
  terminated (instantiateType fuel typeParams) →
  terminated (instantiateType fuel' typeParams) →
  instantiateType fuel typeParams = instantiateType fuel' typeParams.
Proof.
  intros H H'. destruct (decide (fuel ≤ fuel')%nat).
  - symmetry. by apply instantiateType_mono.
  - apply instantiateType_mono; [lia | done].
Qed.

Lemma mergeExtends_Ok (instantiate : TypeParams → Outcome InstantiatedType)
    (typeArgs : option TypeArgs) (typeDef merged : TypeDef) (extends : TypeParams) :
  classIs typeDef "struct" = true →
  td_extends typeDef = Some extends →
  mergeExtends instantiate typeArgs typeDef = Ok merged →
  ∃ parent parentFields fields,
    instantiate (processGenerics extends typeArgs) = Ok parent
    ∧ td_fields (it_typeDef parent) = Some parentFields
    ∧ td_fields typeDef = Some fields
    ∧ merged = spreadTypeDef (it_typeDef parent) typeDef (parentFields ++ fields).
Proof.
  intros Hstruct Hext. unfold mergeExtends. rewrite Hext, Hstruct.
  intros (parent & Hparent & H)%bind_Ok. exists parent.
  destruct (td_fields (it_typeDef parent)) as [parentFields|]; [|done].
  destruct (td_fields typeDef) as [fields|]; [|done].
  injection H as <-. eauto 10.
Qed.

(** What the child declares survives the merge. *)
Lemma mergeExtends_keeps {A : Type} (property : TypeDef → option A)
    (instantiate : TypeParams → Outcome InstantiatedType)
    (typeArgs : option TypeArgs) (typeDef merged : TypeDef) (a : A) :
  (∀ parent child fields,
     property (spreadTypeDef parent child fields)
       = spread (property parent) (property child)) →
  mergeExtends instantiate typeArgs typeDef = Ok merged →
  property typeDef = Some a →
  property merged = Some a.
Proof.
  intros Hspread. unfold mergeExtends.
  destruct (td_extends typeDef) as [extends|]; [|congruence].
  destruct (classIs typeDef "struct"); [|congruence].
  intros (parent & _ & H)%bind_Ok Ha.
  destruct (td_fields (it_typeDef parent)), (td_fields typeDef); try done.
  injection H as <-. rewrite Hspread, Ha. done.
Qed.

(** Lines 132-135 once the request and the definition give no size. *)
Lemma determineSingleSize_fields (fuel : nat) (typeName : string)
    (size : option Z) (typeArgs : option TypeArgs) (typeDef : TypeDef)
    (fields : list TypeParams) (instantiated : list InstantiatedType) :
  truthyZ size = None →
  truthyZ (td_size typeDef) = None →
  classIs typeDef "struct" = true →
  td_fields typeDef = Some fields →
  fieldsInstantiate (instantiateType fuel) typeArgs fields instantiated →
  determineSingleSize (instantiateType fuel) typeName size typeArgs typeDef
    = if decide (sumTotalSizes instantiated = 0)
      then Throw (UnresolvableSizeError typeName entryType)
      else Ok (sumTotalSizes instantiated).
Proof.
  intros Hsize Hdef Hstruct Hfields Hall. unfold determineSingleSize.
  rewrite Hsize, Hdef, Hstruct, Hfields.
  assert (sumFieldSizes (instantiateType fuel) typeArgs fields 0
          = Ok (sumTotalSizes instantiated)) as ->.
  { apply sumFieldSizes_Ok. exists instantiated. split; [done | lia]. }
  simpl. by case_decide.
Qed.

Lemma append_assoc (a b c : string) : (a +:+ b) +:+ c = a +:+ (b +:+ c).
Proof.
  induction a as [|ch a IH]; [done|].
  change (String ch ((a +:+ b) +:+ c) = String ch (a +:+ (b +:+ c))).
  by rewrite IH.
Qed.

(** A result's total size is its single size times [count || 1], on the
    count it reports; that count is the request's unless the request
    names an alias. *)
Lemma instantiateType_sizes (fuel : nat) (typeParams : TypeParams)
    (r : InstantiatedType) :
  instantiateType fuel typeParams = Ok r →
  it_totalSize r = it_singleSize r * countOrOne (it_count r)
  ∧ (∀ typeDef, typeDefs !! p_type typeParams = Some typeDef →
                classIs typeDef "alias" = false →
                it_count r = p_count typeParams).
Proof.
  revert typeParams. induction fuel as [|fuel IH]; intros typeParams; [done|].
  destruct (typeDefs !! p_type typeParams) as [typeDef|] eqn:Hdef;
    [|simpl; unfold instantiateBody; by rewrite Hdef].
  destruct (classIs typeDef "alias") eqn:Halias.
  - rewrite (instantiateType_alias _ _ _ Hdef Halias).
    intros [Hsize _]%IH. split; [done|]. intros ? [= <-]. congruence.
  - rewrite (instantiateType_resolved _ _ _ Hdef Halias).
    intros (merged & _ & (s & _ & ->%checkedResult_Ok)%bind_Ok)%bind_Ok.
    done.
Qed.

Lemma endsWith_append (a s suffix : string) :
  endsWith s suffix → endsWith (a +:+ s) suffix.
Proof. intros [prefix ->]. exists (a +:+ prefix). by rewrite append_assoc. Qed.

(** ** The claims about the instantiator *)


(** C2 (amended). Every result satisfies
    [totalSize = singleSize * (count || 1)] on its own [count]: an absent
    count and a count of 0 both multiply by 1.  The [count] of the result
    is the request's unless the request names an alias. *)
Theorem total_is_single_times_count (fuel : nat) (typeParams : TypeParams)
    (r : InstantiatedType) :
  instantiateType fuel typeParams = Ok r →
  it_totalSize r
    = it_singleSize r * match it_count r with
                        | Some c => if decide (c = 0) then 1 else c
                        | None => 1
                        end
  ∧ (∀ typeDef, typeDefs !! p_type typeParams = Some typeDef →
                classIs typeDef "alias" = false →
                it_count r = p_count typeParams).
Proof.
  intros [Hsize Hcount]%instantiateType_sizes. split; [|done].
  rewrite Hsize. unfold countOrOne, truthyZ.
  destruct (it_count r) as [c|]; [|done]. by case_decide.
Qed.

(** One hop through an alias that declares its target and type arguments
    and no size or count: the request goes on to the target with the
    declared arguments resolved by the request's bindings. *)
Lemma instantiateType_alias_composed (fuel : nat) (typeParams : TypeParams)
    (alias : TypeDef) (target : string) (bindings args : TypeArgs) :
  typeDefs !! p_type typeParams = Some alias →
  classIs alias "alias" = true →
  td_type alias = Some target →
  td_typeArgs alias = Some args →
  td_size alias = None →
  td_count alias = None →
  p_typeArgs typeParams = Some bindings →
  (∀ k v, (k, v) ∈ bindings → v ≠ "") →
  target ∉ map fst bindings →
  instantiateType (S fuel) typeParams
    = instantiateType fuel
        (request target (Some (composeBindings (list_to_map bindings) args))
           (p_size typeParams) (p_count typeParams)).
Proof.
  intros Hdef Halias Htarget Hargs Hsize Hcount Hbindings Hne Hunbound.
  rewrite (instantiateType_alias _ _ _ Hdef Halias), instantiateType_request.
  f_equal. unfold aliasHop, spreadAlias, processGenerics.
  rewrite Hbindings, Htarget, Hargs, Hsize, Hcount. simpl.
  unfold substName. rewrite (lookupArg_not_key _ _ Hunbound). simpl.
  by rewrite substArgs_composeBindings.
Qed.

(** C3 (amended). An alias chain [A -> B -> structC] whose aliases declare
    their type arguments and no size or count is transparent: in a registry
    where no binding in effect renames the next type of the chain and none
    is to the empty name, a request for [A] with bindings has exactly the
    outcomes of the request for [structC] itself, with the same size and
    count and the composed bindings ([B]'s arguments resolved by [A]'s
    arguments resolved by the request's bindings), and whenever both return
    they return the same instantiated type. *)
Theorem alias_chain_transparent (typeParams : TypeParams)
    (aliasA aliasB structC : TypeDef) (nameB nameC : string)
    (bindings argsA argsB : TypeArgs) :
  typeDefs !! p_type typeParams = Some aliasA →
  classIs aliasA "alias" = true →
  td_type aliasA = Some nameB →
  td_typeArgs aliasA = Some argsA →
  td_size aliasA = None →
  td_count aliasA = None →
  typeDefs !! nameB = Some aliasB →
  classIs aliasB "alias" = true →
  td_type aliasB = Some nameC →
  td_typeArgs aliasB = Some argsB →
  td_size aliasB = None →
  td_count aliasB = None →
  typeDefs !! nameC = Some structC →
  classIs structC "struct" = true →
  p_typeArgs typeParams = Some bindings →
  (∀ k v, (k, v) ∈ bindings ++ argsA → v ≠ "") →
  nameB ∉ map fst bindings →
  nameC ∉ map fst argsA →
  let composed :=
    composeBindings
      (list_to_map (composeBindings (list_to_map bindings) argsA)) argsB in
  let direct := request nameC (Some composed) (p_size typeParams)
                  (p_count typeParams) in
  (∀ outcome, terminated outcome →
     (∃ fuel, instantiateType fuel typeParams = outcome)
     ↔ (∃ fuel, instantiateType fuel direct = outcome))
  ∧ (∀ fuel fuel' r r',
       instantiateType fuel typeParams = Ok r →
       instantiateType fuel' direct = Ok r' →
       r = r').
Proof.
  intros HA HaliasA HtypeA HargsA HsizeA HcountA HB HaliasB HtypeB HargsB
    HsizeB HcountB _ _ Hbindings Hne HunboundB HunboundC composed direct.
  assert (∀ k v, (k, v) ∈ bindings → v ≠ "") as Hne1.
  { intros k v Hin. apply (Hne k). apply elem_of_app. by left. }
  assert (∀ k v, (k, v) ∈ argsA → v ≠ "") as Hne2.
  { intros k v Hin. apply (Hne k). apply elem_of_app. by right. }
  assert (∀ fuel, instantiateType (S (S fuel)) typeParams
                  = instantiateType fuel direct) as Hhops.
  { intros fuel.
    rewrite (instantiateType_alias_composed _ _ _ _ _ _ HA HaliasA HtypeA
               HargsA HsizeA HcountA Hbindings Hne1 HunboundB).
    rewrite (instantiateType_alias_composed _ (request nameB _ _ _) _ _ _ _
               HB HaliasB HtypeB HargsB HsizeB HcountB eq_refl); [done| |].
    - by apply composeBindings_nonempty.
    - by rewrite composeBindings_keys. }
  split.
  - intros outcome Hterm. split; intros [fuel Hrun].
    + destruct fuel as [|[|fuel]].
      * by subst.
      * rewrite (instantiateType_alias_composed _ _ _ _ _ _ HA HaliasA HtypeA
                   HargsA HsizeA HcountA Hbindings Hne1 HunboundB) in Hrun.
        by subst.
      * exists fuel. by rewrite <- Hhops.
    + exists (S (S fuel)). by rewrite Hhops.
  - intros fuel fuel' r r' Hrun Hdirect.
    destruct fuel as [|[|fuel]]; [done| |].
    { by rewrite (instantiateType_alias_composed _ _ _ _ _ _ HA HaliasA HtypeA
                    HargsA HsizeA HcountA Hbindings Hne1 HunboundB) in Hrun. }
    rewrite Hhops in Hrun.
    assert (Ok r = Ok r') as [= ->]; [|done].
    rewrite <- Hrun, <- Hdirect.
    apply instantiateType_deterministic; by rewrite ?Hrun, ?Hdirect.
Qed.

(** C4. When a struct definition declares [extends], a successful
    instantiation has instantiated the substituted parent and returns the
    merged definition: its fields are the resolved parent's fields
    followed by the child's own, and every top-level property the child
    declares (its [assertSize], its [comments], ...) is the child's. *)
Theorem extends_parent_fields_first (fuel : nat) (typeParams : TypeParams)
    (typeDef : TypeDef) (extends : TypeParams) (r : InstantiatedType) :
  typeDefs !! p_type typeParams = Some typeDef →
  classIs typeDef "struct" = true →
  td_extends typeDef = Some extends →
  instantiateType (S fuel) typeParams = Ok r →
  ∃ parent parentFields fields,
    instantiateType fuel (processGenerics extends (p_typeArgs typeParams))
      = Ok parent
    ∧ td_fields (it_typeDef parent) = Some parentFields
    ∧ td_fields typeDef = Some fields
    ∧ td_fields (it_typeDef r) = Some (parentFields ++ fields)
    ∧ (∀ a, td_assertSize typeDef = Some a →
            td_assertSize (it_typeDef r) = Some a)
    ∧ (∀ c, td_comments typeDef = Some c →
            td_comments (it_typeDef r) = Some c)
    ∧ it_typeDef r
        = spreadTypeDef (it_typeDef parent) typeDef (parentFields ++ fields).
Proof.
  intros Hdef Hstruct Hext.
  rewrite (instantiateType_resolved _ _ _ Hdef
             (classIs_struct_not_alias _ Hstruct)).
  intros (merged & Hmerged & (s & _ & ->%checkedResult_Ok)%bind_Ok)%bind_Ok.
  destruct (mergeExtends_Ok _ _ _ _ _ Hstruct Hext Hmerged)
    as (parent & parentFields & fields & Hparent & Hpf & Hf & ->).
  exists parent, parentFields, fields. simpl.
  repeat split; try done.
  - intros a Ha. by rewrite Ha.
  - intros c Hc. by rewrite Hc.
Qed.

(** C5 (amended). For a definition that is not an alias and declares an
    [assertSize] other than 0: when the computed total size differs from
    it, the instantiation fails with the size-assertion error, which
    carries the type name and both values; when they are equal, it
    returns the result.  An [assertSize] of 0 is not checked: the
    instantiation returns the result whatever the total size. *)
Theorem assertion_enforced (fuel : nat) (typeParams : TypeParams)
    (typeDef merged : TypeDef) (singleSize : Z) :
  typeDefs !! p_type typeParams = Some typeDef →
  classIs typeDef "alias" = false →
  mergeExtends (instantiateType fuel) (p_typeArgs typeParams) typeDef = Ok merged →
  determineSingleSize (instantiateType fuel) (p_type typeParams)
    (p_size typeParams) (p_typeArgs typeParams) merged = Ok singleSize →
  let totalSize := singleSize * countOrOne (p_count typeParams) in
  (∀ assertSize,
     td_assertSize typeDef = Some assertSize →
     assertSize ≠ 0 →
     (totalSize ≠ assertSize →
        instantiateType (S fuel) typeParams
          = Throw (SizeAssertionError (p_type typeParams) totalSize assertSize))
     ∧ (totalSize = assertSize →
        instantiateType (S fuel) typeParams
          = Ok (mkInstantiated merged totalSize singleSize (p_size typeParams)
                  (p_count typeParams) (p_typeArgs typeParams)
                  (p_type typeParams))))
  ∧ (td_assertSize typeDef = Some 0 →
     instantiateType (S fuel) typeParams
       = Ok (mkInstantiated merged totalSize singleSize (p_size typeParams)
               (p_count typeParams) (p_typeArgs typeParams)
               (p_type typeParams))).
Proof.
  intros Hdef Halias Hmerged Hsingle totalSize.
  rewrite (instantiateType_resolved _ _ _ Hdef Halias), Hmerged. simpl.
  rewrite Hsingle. simpl. unfold checkedResult. fold totalSize. split.
  - intros assertSize Hassert Hnz.
    assert (td_assertSize merged = Some assertSize) as Hassert'.
    { by eapply (mergeExtends_keeps td_assertSize). }
    rewrite (proj2 (truthyZ_Some _ _) (conj Hassert' Hnz)).
    split; intros H; by case_decide.
  - intros Hzero.
    assert (td_assertSize merged = Some 0) as ->; [|done].
    by eapply (mergeExtends_keeps td_assertSize).
Qed.

(** C9. A struct with no size in the request and none declared, whose
    fields instantiate to total sizes that sum to 0 (an empty field list
    among them), fails with the unresolvable-size error instead of
    getting a single size of 0, however much fuel is added. *)
Theorem zero_size_struct_unresolvable (fuel : nat) (typeParams : TypeParams)
    (typeDef merged : TypeDef) (fields : list TypeParams)
    (instantiated : list InstantiatedType) :
  typeDefs !! p_type typeParams = Some typeDef →
  classIs typeDef "struct" = true →
  mergeExtends (instantiateType fuel) (p_typeArgs typeParams) typeDef = Ok merged →
  p_size typeParams = None →
  td_size merged = None →
  td_fields merged = Some fields →
  fieldsInstantiate (instantiateType fuel) (p_typeArgs typeParams)
    fields instantiated →
  sumTotalSizes instantiated = 0 →
  ∀ fuel', (fuel < fuel')%nat →
    instantiateType fuel' typeParams
      = Throw (UnresolvableSizeError (p_type typeParams) entryType).
Proof.
  intros Hdef Hstruct Hmerged Hsize Hdefsize Hfields Hall Hsum fuel' Hfuel.
  assert (instantiateType (S fuel) typeParams
          = Throw (UnresolvableSizeError (p_type typeParams) entryType)) as Hrun;
    [|by rewrite (instantiateType_mono (S fuel) fuel'), Hrun; [| lia | rewrite Hrun]].
  rewrite (instantiateType_resolved _ _ _ Hdef
             (classIs_struct_not_alias _ Hstruct)), Hmerged. simpl.
  assert (classIs merged "struct" = true) as Hstruct'.
  { apply classIs_true. rewrite (mergeExtends_class _ _ _ _ Hmerged).
    by apply classIs_true. }
  rewrite (determineSingleSize_fields _ _ _ _ _ fields instantiated);
    [|by rewrite ?Hsize, ?Hdefsize..].
  by rewrite decide_True.
Qed.

(** C10 (amended). When the count a result reports is 0, its total size
    equals its single size and the type string built up to the count suffix
    (line 177, before it is escaped and the endianness badge is appended)
    ends in [[0]].  A request with count 0 for a type that is not an alias
    reports that 0, and has the sizes of the same request with no count.
    For an alias that declares a count of its own the request's count has no
    effect: every requested count gives the same result, which reports the
    alias's count when the alias leads straight to a type that is not an
    alias. *)
Theorem zero_count_counts_as_one (fuel : nat) (typeParams : TypeParams)
    (r : InstantiatedType) :
  instantiateType fuel typeParams = Ok r →
  (it_count r = Some 0 →
     it_totalSize r = it_singleSize r ∧ endsWith (typeStr r) "[0]")
  ∧ (p_count typeParams = Some 0 →
     ∀ typeDef, typeDefs !! p_type typeParams = Some typeDef →
                classIs typeDef "alias" = false →
       it_count r = Some 0
       ∧ ∃ r', instantiateType fuel
                 (request (p_type typeParams) (p_typeArgs typeParams)
                    (p_size typeParams) None) = Ok r'
               ∧ it_totalSize r' = it_totalSize r
               ∧ it_singleSize r' = it_singleSize r)
  ∧ (∀ typeDef count,
       typeDefs !! p_type typeParams = Some typeDef →
       classIs typeDef "alias" = true →
       td_count typeDef = Some count →
       (∀ other, instantiateType fuel
                   (request (p_type typeParams) (p_typeArgs typeParams)
                      (p_size typeParams) other) = Ok r)
       ∧ (∀ target,
            typeDefs !! p_type (aliasHop typeParams typeDef) = Some target →
            classIs target "alias" = false →
            it_count r = Some count)).
Proof.
  intros Hrun. split; [|split].
  - intros Hzero. destruct (instantiateType_sizes _ _ _ Hrun) as [Hsize _].
    split; [rewrite Hsize, Hzero; change (countOrOne (Some 0)) with 1; lia|].
    unfold typeStr. rewrite Hzero.
    do 4 apply endsWith_append. by exists "".
  - intros Hzero typeDef Hdef Halias.
    destruct (instantiateType_sizes _ _ _ Hrun) as [_ Hcount].
    split; [by rewrite (Hcount _ Hdef Halias)|].
    destruct fuel as [|fuel]; [done|].
    rewrite (instantiateType_resolved _ _ _ Hdef Halias) in Hrun.
    apply bind_Ok in Hrun as (merged & Hmerged & Hrun).
    apply bind_Ok in Hrun as (s & Hs & Hrun).
    rewrite (instantiateType_resolved _ (request _ _ _ _) _ Hdef Halias).
    simpl. rewrite Hmerged. simpl. rewrite Hs. simpl.
    revert Hrun. unfold checkedResult. simpl. rewrite Hzero.
    change (countOrOne (Some 0)) with (countOrOne None).
    destruct (truthyZ (td_assertSize merged)) as [a|].
    + case_decide; [|done]. intros [= <-]. eauto.
    + intros [= <-]. eauto.
  - intros typeDef count Hdef Halias Hcount.
    destruct fuel as [|fuel]; [done|].
    rewrite (instantiateType_alias _ _ _ Hdef Halias) in Hrun. split.
    + intros other.
      rewrite (instantiateType_alias _ (request _ _ _ _) _ Hdef Halias).
      rewrite <- Hrun, instantiateType_request. symmetry.
      rewrite instantiateType_request. f_equal.
      destruct typeParams as [name type typeArgs size ? labels comments].
      unfold aliasHop, spreadAlias, processGenerics, request. simpl.
      rewrite Hcount. by destruct typeArgs.
    + intros target Htarget Hresolved.
      destruct (instantiateType_sizes _ _ _ Hrun) as [_ Hecho].
      rewrite (Hecho _ Htarget Hresolved).
      destruct typeParams as [name type typeArgs size ? labels comments].
      unfold aliasHop, spreadAlias, processGenerics. simpl.
      rewrite Hcount. by destruct typeArgs.
Qed.
End InstantiateFacts.

(** ** The instantiator on the example schemas *)



Lemma total_is_single_times_count_witness :
  instantiateType exampleDefs "Header" 1 (request "uint32" None None (Some 3))
    = Ok (mkInstantiated (primitiveDef (Some 4) None) 12 4 None (Some 3) None
            "uint32")
  ∧ 12 = 4 * 3.
Proof.
  split; [reflexivity|].
  exact (proj1 (total_is_single_times_count exampleDefs "Header" 1
                  (request "uint32" None None (Some 3)) _ eq_refl)).
Defined.

Lemma total_is_single_times_count_counterexample :
  ¬ ∀ r, instantiateType exampleDefs "Header" 1
           (request "uint32" None None (Some 0)) = Ok r →
         sizeInvariantAsStated r.
Proof.
  intros H. specialize (H _ eq_refl). vm_compute in H. discriminate H.
Qed.

Lemma alias_chain_transparent_witness :
  (exampleDefs !! "Boxed" = Some (aliasDef "BoxOf" (Some [("U", "V")]) None)
   ∧ exampleDefs !! "BoxOf" = Some (aliasDef "Box" (Some [("T", "U")]) None)
   ∧ exampleDefs !! "Box" = Some boxDef
   ∧ composeBindings
       (list_to_map (composeBindings (list_to_map [("V", "uint32")])
                       [("U", "V")]))
       [("T", "U")] = [("T", "uint32")])
  ∧ instantiateType exampleDefs "Header" 4
      (request "Boxed" (Some [("V", "uint32")]) None None) = Ok boxInstance
  ∧ instantiateType exampleDefs "Header" 2
      (request "Box" (Some [("T", "uint32")]) None None) = Ok boxInstance
  ∧ ∀ fuel r, instantiateType exampleDefs "Header" fuel
                (request "Boxed" (Some [("V", "uint32")]) None None) = Ok r →
              r = boxInstance.
Proof.
  split; [done|]. split; [reflexivity|]. split; [reflexivity|].
  intros fuel r Hrun.
  refine (proj2 (alias_chain_transparent exampleDefs "Header"
                   (request "Boxed" (Some [("V", "uint32")]) None None)
                   (aliasDef "BoxOf" (Some [("U", "V")]) None)
                   (aliasDef "Box" (Some [("T", "U")]) None) boxDef
                   "BoxOf" "Box" [("V", "uint32")] [("U", "V")] [("T", "U")]
                   eq_refl eq_refl eq_refl eq_refl eq_refl eq_refl
                   eq_refl eq_refl eq_refl eq_refl eq_refl eq_refl
                   eq_refl eq_refl eq_refl _ _ _)
            fuel 2%nat r boxInstance Hrun eq_refl).
  - intros k v Hin. repeat (apply elem_of_cons in Hin as [[= _ ->]|Hin]; [done|]).
    by apply elem_of_nil in Hin.
  - intros Hin. repeat (apply elem_of_cons in Hin as [[=]|Hin]).
    by apply elem_of_nil in Hin.
  - intros Hin. repeat (apply elem_of_cons in Hin as [[=]|Hin]).
    by apply elem_of_nil in Hin.
Defined.

Lemma alias_chain_transparent_counterexample :
  ¬ aliasChainAsStated countedDefs "Header"
      (request "Boxed3" (Some [("V", "uint32")]) None None) "Box"
      [("T", "uint32")].
Proof.
  intros H.
  assert (instantiateType countedDefs "Header" 4
            (request "Boxed3" (Some [("V", "uint32")]) None None)
          = Ok (mkInstantiated boxDef 12 4 None (Some 3)
                  (Some [("T", "uint32")]) "Box")) as Hrun
    by (vm_compute; reflexivity).
  destruct (H _ _ Hrun) as [fuel' Hdirect].
  destruct (instantiateType_sizes _ _ _ _ _ Hdirect) as [_ Hcount].
  specialize (Hcount boxDef eq_refl eq_refl). discriminate Hcount.
Qed.

Lemma extends_parent_fields_first_witness :
  (exampleDefs !! "Child" = Some childDef
   ∧ instantiateType exampleDefs "Header" 3 (request "Child" None None None)
       = Ok (instanceOf "Child"
               (spreadTypeDef headerDef childDef
                  [field "magic" "uint32"; field "flags" "Flags";
                   field "extra" "uint16"]) 10))
  ∧ ∃ parent parentFields fields,
      instantiateType exampleDefs "Header" 2 (request "Header" None None None)
        = Ok parent
      ∧ td_fields (it_typeDef parent) = Some parentFields
      ∧ td_fields childDef = Some fields
      ∧ parentFields ++ fields
          = [field "magic" "uint32"; field "flags" "Flags";
             field "extra" "uint16"].
Proof.
  split; [done|].
  destruct (extends_parent_fields_first exampleDefs "Header" 2
              (request "Child" None None None) childDef
              (request "Header" None None None) _ eq_refl eq_refl eq_refl eq_refl)
    as (parent & parentFields & fields & Hparent & Hpf & Hf & Hmerged & _).
  exists parent, parentFields, fields. repeat split; try done.
  simpl in Hmerged. by injection Hmerged.
Defined.

Lemma assertion_enforced_witness :
  (exampleDefs !! "Header" = Some headerDef
   ∧ td_assertSize headerDef = Some 8
   ∧ determineSingleSize "Header" (instantiateType exampleDefs "Header" 1)
       "Header" None None headerDef = Ok 8
   ∧ exampleDefs !! "Unchecked" = Some uncheckedDef
   ∧ td_assertSize uncheckedDef = Some 0)
  ∧ instantiateType exampleDefs "Header" 2 (request "Header" None None (Some 2))
      = Throw (SizeAssertionError "Header" 16 8)
  ∧ instantiateType exampleDefs "Header" 2 (request "Header" None None None)
      = Ok headerInstance
  ∧ instantiateType exampleDefs "Unchecked" 2
      (request "Unchecked" None None None)
      = Ok (instanceOf "Unchecked" uncheckedDef 4).
Proof.
  split; [done|]. split; [|split].
  - apply (proj1 (assertion_enforced exampleDefs "Header" 1
                    (request "Header" None None (Some 2)) headerDef headerDef 8
                    eq_refl eq_refl eq_refl eq_refl) 8 eq_refl);
      vm_compute; discriminate.
  - apply (proj1 (assertion_enforced exampleDefs "Header" 1
                    (request "Header" None None None) headerDef headerDef 8
                    eq_refl eq_refl eq_refl eq_refl) 8 eq_refl);
      [vm_compute; discriminate | reflexivity].
  - exact (proj2 (assertion_enforced exampleDefs "Unchecked" 1
                    (request "Unchecked" None None None) uncheckedDef
                    uncheckedDef 4 eq_refl eq_refl eq_refl eq_refl) eq_refl).
Defined.

Lemma assertion_enforced_counterexample :
  ¬ assertionAsStated exampleDefs "Unchecked" 1
      (request "Unchecked" None None None).
Proof.
  intros H.
  destruct (H uncheckedDef uncheckedDef 4 0 eq_refl eq_refl eq_refl eq_refl
              eq_refl) as [Hthrow _].
  assert (4 * countOrOne (p_count (request "Unchecked" None None None)) ≠ 0)
    as Hne by (vm_compute; discriminate).
  specialize (Hthrow Hne). vm_compute in Hthrow. discriminate Hthrow.
Qed.

Lemma zero_size_struct_unresolvable_witness :
  (exampleDefs !! "Empty" = Some (structDef [] None None None)
   ∧ sumTotalSizes [] = 0)
  ∧ instantiateType exampleDefs "Empty" 1 (request "Empty" None None None)
      = Throw (UnresolvableSizeError "Empty" "Empty").
Proof.
  split; [done|].
  apply (zero_size_struct_unresolvable exampleDefs "Empty" 0
           (request "Empty" None None None) (structDef [] None None None)
           (structDef [] None None None) [] []);
    try reflexivity; [constructor | lia].
Defined.

Lemma zero_count_counts_as_one_witness :
  instantiateType exampleDefs "Header" 1 (request "uint32" None None (Some 0))
    = Ok (mkInstantiated (primitiveDef (Some 4) None) 4 4 None (Some 0) None
            "uint32")
  ∧ endsWith (typeStr (mkInstantiated (primitiveDef (Some 4) None) 4 4 None
                         (Some 0) None "uint32")) "[0]"
  ∧ instantiateType exampleDefs "Header" 2 (request "Vec3" None None (Some 0))
    = Ok (mkInstantiated (primitiveDef (Some 4) None) 12 4 None (Some 3) None
            "float")
  ∧ instantiateType exampleDefs "Header" 2 (request "Vec3" None None (Some 7))
    = Ok (mkInstantiated (primitiveDef (Some 4) None) 12 4 None (Some 3) None
            "float").
Proof.
  split; [reflexivity|]. split; [|split; [reflexivity|]].
  - exact (proj2 (proj1 (zero_count_counts_as_one exampleDefs "Header" 1
                           (request "uint32" None None (Some 0)) _ eq_refl)
                    eq_refl)).
  - exact (proj1 (proj2 (proj2 (zero_count_counts_as_one exampleDefs "Header" 2
                                  (request "Vec3" None None (Some 0)) _ eq_refl))
                    (aliasDef "float" None (Some 3)) 3 eq_refl eq_refl eq_refl)
             (Some 7)).
Defined.

Lemma zero_count_counts_as_one_counterexample :
  ¬ zeroCountAsStated exampleDefs "Vec3" 2 (request "Vec3" None None (Some 0)).
Proof.
  intros H. destruct (H eq_refl _ eq_refl) as [Hsize _].
  vm_compute in Hsize. discriminate Hsize.
Qed.

(** ** The steps of the projector *)

Section RenderFacts.
Variable typeDefs : gmap string TypeDef.
Variable entryType : string.
Variable showOffsets : bool.

Abbreviation instantiateType := (instantiateType typeDefs entryType).
Abbreviation renderTypeAsTable :=
  (renderTypeAsTable typeDefs entryType showOffsets).

Lemma hasSeen_insert_eq (seenTypes : SeenTypes) (id : string) (pathId : PathId) :
  hasSeen (<[id := pathId]> seenTypes) id = pathId.
Proof. unfold hasSeen. rewrite lookup_insert_eq. by destruct pathId. Qed.

Lemma hasSeen_insert_keeps (seenTypes : SeenTypes) (id id' : string)
    (pathId : PathId) (firstPath : list string) :
  hasSeen seenTypes id = None →
  hasSeen seenTypes id' = Some firstPath →
  hasSeen (<[id := pathId]> seenTypes) id' = Some firstPath.
Proof.
  intros Hnone Hsome. destruct (decide (id = id')) as [->|Hne]; [congruence|].
  unfold hasSeen in *. by rewrite lookup_insert_ne.
Qed.

Lemma embeddedTypeOf_is_Some
    (instantiate : TypeParams → Outcome InstantiatedType)
    (instantiatedFieldType : InstantiatedType)
    (embeddedType : option InstantiatedType) :
  embeddedTypeOf instantiate instantiatedFieldType = Ok embeddedType →
  is_Some embeddedType ↔ hasEmbeddedType instantiatedFieldType = true.
Proof.
  unfold embeddedTypeOf, hasEmbeddedType.
  destruct (truthyStr (td_class (it_typeDef instantiatedFieldType))) as [cls|].
  - intros [= <-]. rewrite bool_decide_eq_true_2 by eauto. split; eauto.
  - rewrite bool_decide_eq_false_2 by (by intros [? ?]). simpl.
    destruct (isPointer (it_typeName instantiatedFieldType)).
    + destruct (it_typeArgs instantiatedFieldType); [|done].
      intros (pointee & _ & [= <-])%bind_Ok. split; eauto.
    + intros [= <-]. split; [by intros [? ?] | done].
Qed.

Section Loop.
Variable instantiate : TypeParams → Outcome InstantiatedType.
Variable render :
  InstantiatedType → PathId → SeenTypes → Outcome (Doc * SeenTypes).

Abbreviation renderField := (renderField showOffsets instantiate render).
Abbreviation renderFields := (renderFields showOffsets instantiate render).

(** What one successful turn of the loop has done. *)
Lemma renderField_Ok (typeArgs : option TypeArgs) (pathId : PathId)
    (field : TypeParams) (offset offset' : Z) (seenTypes seenTypes' : SeenTypes)
    (row : FieldRow Doc) :
  renderField typeArgs pathId field offset seenTypes
    = Ok (row, offset', seenTypes') →
  ∃ fieldType embeddedType,
    instantiate (processGenerics field typeArgs) = Ok fieldType
    ∧ embeddedTypeOf instantiate fieldType = Ok embeddedType
    ∧ offset' = offset + it_totalSize fieldType
    ∧ row_name row = p_name field
    ∧ row_pathId row = joinPathId pathId (p_name field)
    ∧ row_offset row = (if showOffsets then Some offset else None)
    ∧ row_type row = fieldType
    ∧ let id := seenTypeId (it_typeName fieldType) (it_typeArgs fieldType) in
      match hasSeen seenTypes id with
      | Some firstPath =>
          seenTypes' = seenTypes
          ∧ row_embedded row = None
          ∧ row_backref row = ((λ _, firstPath) <$> embeddedType)
      | None =>
          row_backref row = None
          ∧ match embeddedType with
            | Some embedded =>
                ∃ table,
                  render embedded (joinPathId pathId (p_name field))
                    (<[id := joinPathId pathId (p_name field)]> seenTypes)
                    = Ok (table, seenTypes')
                  ∧ row_embedded row = Some table
            | None =>
                seenTypes' = <[id := joinPathId pathId (p_name field)]> seenTypes
                ∧ row_embedded row = None
            end
      end.
Proof.
  unfold renderField.
  intros (fieldType & Hfield & (embeddedType & Hembedded & H)%bind_Ok)%bind_Ok.
  exists fieldType, embeddedType. do 2 (split; [done|]). cbv zeta.
  destruct (hasSeen seenTypes _) as [firstPath|];
    destruct embeddedType as [embedded|]; simpl in H.
  - by injection H as <- <- <-.
  - by injection H as <- <- <-.
  - apply bind_Ok in H as ([table seen''] & Hrender & [= <- <- <-]).
    simpl. eauto 10.
  - by injection H as <- <- <-.
Qed.

Lemma renderFields_cons (typeArgs : option TypeArgs) (pathId : PathId)
    (field : TypeParams) (rest : list TypeParams) (offset : Z)
    (seenTypes seenTypes' : SeenTypes) (rows : list (FieldRow Doc)) :
  renderFields typeArgs pathId (field :: rest) offset seenTypes
    = Ok (rows, seenTypes') →
  ∃ row offset' seenTypes1 laterRows,
    renderField typeArgs pathId field offset seenTypes
      = Ok (row, offset', seenTypes1)
    ∧ renderFields typeArgs pathId rest offset' seenTypes1
        = Ok (laterRows, seenTypes')
    ∧ rows = row :: laterRows.
Proof.
  simpl. intros ([[row offset'] seenTypes1] & Hrow & H)%bind_Ok.
  apply bind_Ok in H as ([laterRows seenTypes2] & Hrest & [= <- <-]).
  eauto 10.
Qed.

Hypothesis render_keepsSeen : keepsSeen render.

Lemma renderField_keepsSeen (typeArgs : option TypeArgs) (pathId : PathId)
    (field : TypeParams) (offset offset' : Z) (seenTypes seenTypes' : SeenTypes)
    (row : FieldRow Doc) (id : string) (firstPath : list string) :
  renderField typeArgs pathId field offset seenTypes
    = Ok (row, offset', seenTypes') →
  hasSeen seenTypes id = Some firstPath →
  hasSeen seenTypes' id = Some firstPath.
Proof.
  intros (fieldType & embeddedType & _ & _ & _ & _ & _ & _ & _ & H)%renderField_Ok
    Hid.
  simpl in H.
  destruct (hasSeen seenTypes (seenTypeId _ _)) as [q|] eqn:Hseen.
  - by destruct H as (-> & _).
  - destruct H as (_ & H). destruct embeddedType as [embedded|].
    + destruct H as (table & Hrender & _).
      eapply render_keepsSeen; [done|]. by apply hasSeen_insert_keeps.
    + destruct H as (-> & _). by apply hasSeen_insert_keeps.
Qed.

Lemma renderFields_keepsSeen (typeArgs : option TypeArgs) (pathId : PathId)
    (fields : list TypeParams) (offset : Z) (seenTypes seenTypes' : SeenTypes)
    (rows : list (FieldRow Doc)) (id : string) (firstPath : list string) :
  renderFields typeArgs pathId fields offset seenTypes = Ok (rows, seenTypes') →
  hasSeen seenTypes id = Some firstPath →
  hasSeen seenTypes' id = Some firstPath.
Proof.
  revert offset seenTypes rows.
  induction fields as [|field rest IH]; intros offset seenTypes rows.
  - by intros [= <- <-].
  - intros (row & offset' & seenTypes1 & laterRows & Hrow & Hrest & _)%renderFields_cons
      Hid.
    eapply IH; [done|]. by eapply renderField_keepsSeen.
Qed.

(** Once a signature is recorded, no later field with it is expanded. *)
Lemma renderFields_seen (typeArgs : option TypeArgs) (pathId : PathId)
    (fields : list TypeParams) (offset : Z) (seenTypes seenTypes' : SeenTypes)
    (rows : list (FieldRow Doc)) (id : string) (firstPath : list string) :
  renderFields typeArgs pathId fields offset seenTypes = Ok (rows, seenTypes') →
  hasSeen seenTypes id = Some firstPath →
  ∀ later, later ∈ rows →
    seenTypeId (it_typeName (row_type later)) (it_typeArgs (row_type later)) = id →
    row_embedded later = None
    ∧ (hasEmbeddedType (row_type later) = true →
       row_backref later = Some firstPath).
Proof.
  revert offset seenTypes rows.
  induction fields as [|field rest IH]; intros offset seenTypes rows.
  - intros [= <- <-] _ later Hin. by apply elem_of_nil in Hin.
  - intros (row & offset' & seenTypes1 & laterRows & Hrow & Hrest & ->)%renderFields_cons
      Hid later Hin Hsig.
    apply elem_of_cons in Hin as [->|Hin].
    + apply renderField_Ok in Hrow
        as (fieldType & embeddedType & _ & Hemb & _ & _ & _ & _ & Htype & H).
      simpl in H. rewrite Htype in Hsig. rewrite Hsig, Hid in H.
      destruct H as (_ & Hnone & Hback). split; [done|].
      rewrite Htype. intros Hhas.
      apply (embeddedTypeOf_is_Some _ _ _ Hemb) in Hhas as [embedded ->].
      by rewrite Hback.
    + eapply IH; [done| |done..]. by eapply renderField_keepsSeen.
Qed.

(** The rows follow the fields, and the offsets run from [offset]. *)
Lemma renderFields_offsets (typeArgs : option TypeArgs) (pathId : PathId)
    (fields : list TypeParams) (offset : Z) (seenTypes seenTypes' : SeenTypes)
    (rows : list (FieldRow Doc)) :
  renderFields typeArgs pathId fields offset seenTypes = Ok (rows, seenTypes') →
  Forall2 (λ field row,
             row_name row = p_name field
             ∧ instantiate (processGenerics field typeArgs) = Ok (row_type row))
    fields rows
  ∧ ∀ (i : nat) row, rows !! i = Some row →
      row_offset row
        = if showOffsets
          then Some (offset + sumTotalSizes (row_type <$> take i rows))
          else None.
Proof.
  revert offset seenTypes rows.
  induction fields as [|field rest IH]; intros offset seenTypes rows.
  - intros [= <- <-]. split; [constructor | by intros i row].
  - intros (row & offset' & seenTypes1 & laterRows & Hrow & Hrest & ->)%renderFields_cons.
    apply renderField_Ok in Hrow
      as (fieldType & embeddedType & Hfield & _ & -> & Hname & _ & Hoff & <- & _).
    apply IH in Hrest as [Hall Hoffsets]. split; [by constructor|].
    intros [|i] later; simpl.
    + intros [= <-]. rewrite Hoff. destruct showOffsets; [|done].
      f_equal. unfold sumTotalSizes. simpl. lia.
    + intros Hlater. rewrite (Hoffsets _ _ Hlater).
      destruct showOffsets; [|done]. f_equal.
      unfold sumTotalSizes. csimpl. lia.
Qed.
End Loop.

Lemma renderTypeAsTable_keepsSeen (fuel : nat) :
  keepsSeen (renderTypeAsTable fuel).
Proof.
  induction fuel as [|fuel IH]; intros instantiatedType pathId seenTypes table
    seenTypes'; [done|].
  simpl. unfold renderTypeBody, renderStructAsTable.
  destruct (classIs _ "struct").
  - destruct (td_fields _) as [fields|]; [|done].
    intros ([rows seenTypes1] & Hrows & [= <- <-])%bind_Ok id firstPath Hid.
    by eapply renderFields_keepsSeen.
  - destruct (classIs _ "bitfield").
    { by intros (? & _ & [= <- <-])%bind_Ok. }
    destruct (classIs _ "enum"); [|done].
    by intros (? & _ & [= <- <-])%bind_Ok.
Qed.

Lemma renderTypeAsTable_struct (fuel : nat) (instantiatedType : InstantiatedType)
    (pathId : PathId) (seenTypes seenTypes' : SeenTypes) (table : Doc) :
  classIs (it_typeDef instantiatedType) "struct" = true →
  renderTypeAsTable (S fuel) instantiatedType pathId seenTypes
    = Ok (table, seenTypes') →
  ∃ fields rows,
    td_fields (it_typeDef instantiatedType) = Some fields
    ∧ table = StructTable rows
    ∧ renderFields showOffsets (instantiateType fuel) (renderTypeAsTable fuel)
        (it_typeArgs instantiatedType) pathId fields 0 seenTypes
        = Ok (rows, seenTypes').
Proof.
  intros Hstruct. simpl. unfold renderTypeBody, renderStructAsTable.
  rewrite Hstruct. destruct (td_fields _) as [fields|]; [|done].
  intros ([rows seenTypes1] & Hrows & [= <- <-])%bind_Ok. eauto.
Qed.
Lemma hasSeen_insert_null (seenTypes : SeenTypes) (id id' : string) :
  hasSeen seenTypes id = None →
  hasSeen (<[id := None]> seenTypes) id' = hasSeen seenTypes id'.
Proof.
  intros Hnone. destruct (decide (id = id')) as [<-|Hne].
  - by rewrite hasSeen_insert_eq.
  - unfold hasSeen. by rewrite lookup_insert_ne.
Qed.

Section NullPath.
Variable instantiate : TypeParams → Outcome InstantiatedType.
Variable render :
  InstantiatedType → PathId → SeenTypes → Outcome (Doc * SeenTypes).
Hypothesis render_null :
  ∀ instantiatedType seenTypes table seenTypes',
    render instantiatedType None seenTypes = Ok (table, seenTypes') →
    ∀ id, hasSeen seenTypes' id = hasSeen seenTypes id.

Lemma renderFields_null (typeArgs : option TypeArgs) (fields : list TypeParams)
    (offset : Z) (seenTypes seenTypes' : SeenTypes) (rows : list (FieldRow Doc)) :
  renderFields showOffsets instantiate render typeArgs None fields offset
    seenTypes = Ok (rows, seenTypes') →
  (∀ id, hasSeen seenTypes' id = hasSeen seenTypes id)
  ∧ Forall (λ row, row_pathId row = None) rows.
Proof.
  revert offset seenTypes rows.
  induction fields as [|field rest IH]; intros offset seenTypes rows.
  - intros [= <- <-]. split; [done | constructor].
  - intros (row & offset' & seenTypes1 & laterRows & Hrow & Hrest & ->)%renderFields_cons.
    apply IH in Hrest as [Hrest Hrows].
    apply renderField_Ok in Hrow
      as (fieldType & embeddedType & _ & _ & _ & _ & Hpath & _ & _ & H).
    simpl in Hpath, H.
    assert (∀ id, hasSeen seenTypes1 id = hasSeen seenTypes id) as Hfirst.
    { destruct (hasSeen seenTypes (seenTypeId _ _)) as [firstPath|] eqn:Hseen.
      - by destruct H as (-> & _).
      - destruct H as (_ & H). destruct embeddedType as [embedded|].
        + destruct H as (table & Hrender & _). intros id.
          rewrite (render_null _ _ _ _ Hrender). by apply hasSeen_insert_null.
        + destruct H as (-> & _). intros id. by apply hasSeen_insert_null. }
    split; [|by constructor].
    intros id. by rewrite Hrest.
Qed.
End NullPath.

(** Beneath a null path nothing is recorded with a path. *)
Lemma renderTypeAsTable_null (fuel : nat)
    (instantiatedType : InstantiatedType) (seenTypes seenTypes' : SeenTypes)
    (table : Doc) :
  renderTypeAsTable fuel instantiatedType None seenTypes
    = Ok (table, seenTypes') →
  (∀ id, hasSeen seenTypes' id = hasSeen seenTypes id)
  ∧ (∀ rows, table = StructTable rows →
             Forall (λ row, row_pathId row = None) rows).
Proof.
  revert instantiatedType seenTypes seenTypes' table.
  induction fuel as [|fuel IH];
    intros instantiatedType seenTypes seenTypes' table; [done|].
  simpl. unfold renderTypeBody, renderStructAsTable.
  destruct (classIs _ "struct").
  - destruct (td_fields _) as [fields|]; [|done].
    intros ([rows seenTypes1] & Hrows & [= <- <-])%bind_Ok.
    eapply renderFields_null in Hrows as [Hseen Hpaths];
      [|intros ???? Hrender; by apply (IH _ _ _ _ Hrender)].
    split; [done|]. by intros ? [= <-].
  - destruct (classIs _ "bitfield").
    { intros (? & H & [= <- <-])%bind_Ok. split; [done|].
      intros rows ->. unfold renderBitfieldAsTable in H.
      by destruct (td_bits _). }
    destruct (classIs _ "enum"); [|done].
    intros (? & H & [= <- <-])%bind_Ok. split; [done|].
    intros rows ->. unfold renderEnumAsTable in H.
    by destruct (td_options _).
Qed.
End RenderFacts.

(** ** The claims about the projector *)

Section RenderClaims.
Variable typeDefs : gmap string TypeDef.
Variable entryType : string.

Abbreviation instantiateType := (instantiateType typeDefs entryType).
Abbreviation renderTypeAsTable := (renderTypeAsTable typeDefs entryType).

(** Results for the same type name agree on having an embedded type. *)
Lemma hasEmbeddedType_typeName (fuel fuel' : nat) (typeParams typeParams' : TypeParams)
    (r r' : InstantiatedType) :
  instantiateType fuel typeParams = Ok r →
  instantiateType fuel' typeParams' = Ok r' →
  it_typeName r = it_typeName r' →
  hasEmbeddedType r = hasEmbeddedType r'.
Proof.
  intros (typeDef & Hdef & _ & Hclass)%instantiateType_class
         (typeDef' & Hdef' & _ & Hclass')%instantiateType_class Hname.
  unfold hasEmbeddedType. rewrite Hclass, Hclass', <- Hname.
  rewrite <- Hname, Hdef in Hdef'. by injection Hdef' as <-.
Qed.

(** C6 (amended). In the loop over the fields of a struct rendered under a
    path, take a field whose signature is not yet recorded.  When it has a
    non-empty name, its row is expanded in place when it has an embedded
    type, with no back-reference, and the field's own path is recorded;
    every later field of the struct with the same type name and type
    arguments is not expanded and, the type being an embedded one, links
    back to that path; the path is still the recorded one when the loop
    ends.  When it has no name, or an empty one, its path is null and its
    signature stays unseen: the field is expanded all the same, and so is
    the next field when that has the same type name and type arguments,
    with no back-reference. *)
Theorem same_signature_is_back_reference (showOffsets : bool) (fuel : nat)
    (typeArgs : option TypeArgs) (names : list string) (field : TypeParams)
    (rest : list TypeParams) (offset : Z) (seenTypes seenTypes' : SeenTypes)
    (rows : list (FieldRow Doc)) :
  renderFields showOffsets (instantiateType fuel)
    (renderTypeAsTable showOffsets fuel) typeArgs (Some names)
    (field :: rest) offset seenTypes = Ok (rows, seenTypes') →
  ∃ first laterRows,
    rows = first :: laterRows
    ∧ let id := seenTypeId (it_typeName (row_type first))
                  (it_typeArgs (row_type first)) in
      (∀ name, p_name field = Some name → name ≠ "" →
         row_pathId first = Some (names ++ [name])
         ∧ (hasSeen seenTypes id = None →
            (hasEmbeddedType (row_type first) = true →
             is_Some (row_embedded first) ∧ row_backref first = None)
            ∧ hasSeen seenTypes' id = Some (names ++ [name])
            ∧ ∀ later, later ∈ laterRows →
                it_typeName (row_type later) = it_typeName (row_type first) →
                it_typeArgs (row_type later) = it_typeArgs (row_type first) →
                row_embedded later = None
                ∧ (hasEmbeddedType (row_type first) = true →
                   row_backref later = Some (names ++ [name]))))
      ∧ (truthyStr (p_name field) = None →
         row_pathId first = None
         ∧ (hasSeen seenTypes id = None →
            (hasEmbeddedType (row_type first) = true →
             is_Some (row_embedded first) ∧ row_backref first = None)
            ∧ ∀ second laterRows', laterRows = second :: laterRows' →
                it_typeName (row_type second) = it_typeName (row_type first) →
                it_typeArgs (row_type second) = it_typeArgs (row_type first) →
                row_backref second = None
                ∧ (hasEmbeddedType (row_type first) = true →
                   is_Some (row_embedded second)))).
Proof.
  intros (first & offset' & seenTypes1 & laterRows & Hfirst & Hrest & ->)%renderFields_cons.
  exists first, laterRows. split; [done|].
  apply renderField_Ok in Hfirst
    as (fieldType & embeddedType & Hinst & Hemb & _ & _ & Hpath & _ & Htype & H).
  cbv zeta in *. rewrite Htype. split.
  - intros name Hname Hne.
    assert (joinPathId (Some names) (p_name field) = Some (names ++ [name]))
      as Hjoin.
    { unfold joinPathId, truthyStr. rewrite Hname. by rewrite decide_False. }
    rewrite Hjoin in Hpath, H. split; [done|].
    intros Hunseen. rewrite Hunseen in H.
    destruct H as (Hback & H).
    assert (hasSeen seenTypes1
              (seenTypeId (it_typeName fieldType) (it_typeArgs fieldType))
            = Some (names ++ [name])) as Hrecorded.
    { destruct embeddedType as [embedded|].
      - destruct H as (table & Hrender & _).
        eapply renderTypeAsTable_keepsSeen; [done|]. apply hasSeen_insert_eq.
      - destruct H as (-> & _). apply hasSeen_insert_eq. }
    split; [|split].
    + intros Hhas. split; [|done].
      apply (embeddedTypeOf_is_Some _ _ _ Hemb) in Hhas as [embedded ->].
      destruct H as (table & _ & ->). eauto.
    + eapply renderFields_keepsSeen;
        [apply renderTypeAsTable_keepsSeen | done..].
    + intros later Hin HtypeName HtypeArgs.
      destruct (renderFields_seen _ _ _ (renderTypeAsTable_keepsSeen _ _ _ _)
                  _ _ _ _ _ _ _ _ _ Hrest Hrecorded later Hin)
        as [Hnone Hlink]; [by rewrite HtypeName, HtypeArgs|].
      split; [done|]. intros Hhas. apply Hlink.
      destruct (renderFields_offsets _ _ _ _ _ _ _ _ _ _ Hrest) as [Hall _].
      apply list_elem_of_lookup in Hin as [i Hi].
      destruct (Forall2_lookup_r _ _ _ _ _ Hall Hi) as (f & _ & _ & Hlater).
      by rewrite (hasEmbeddedType_typeName _ _ _ _ _ _ Hlater Hinst HtypeName).
  - intros Hfalsy.
    assert (joinPathId (Some names) (p_name field) = None) as Hjoin.
    { unfold joinPathId. by rewrite Hfalsy. }
    rewrite Hjoin in Hpath, H. split; [done|].
    intros Hunseen. rewrite Hunseen in H.
    destruct H as (Hback & H).
    assert (hasSeen seenTypes1
              (seenTypeId (it_typeName fieldType) (it_typeArgs fieldType))
            = None) as Hstill.
    { destruct embeddedType as [embedded|].
      - destruct H as (table & Hrender & _).
        rewrite (proj1 (renderTypeAsTable_null _ _ _ _ _ _ _ _ Hrender)).
        apply hasSeen_insert_eq.
      - destruct H as (-> & _). apply hasSeen_insert_eq. }
    split.
    + intros Hhas. split; [|done].
      apply (embeddedTypeOf_is_Some _ _ _ Hemb) in Hhas as [embedded ->].
      destruct H as (table & _ & ->). eauto.
    + intros second laterRows' -> HtypeName HtypeArgs.
      destruct rest as [|field2 rest']; [done|].
      apply renderFields_cons in Hrest
        as (row2 & offset2 & seenTypes2 & later2 & Hsecond & _ & [= <- <-]).
      apply renderField_Ok in Hsecond
        as (fieldType2 & embedded2 & Hinst2 & Hemb2 & _ & _ & _ & _ & Htype2 & H2).
      cbv zeta in H2. rewrite Htype2 in HtypeName, HtypeArgs.
      rewrite HtypeName, HtypeArgs, Hstill in H2.
      destruct H2 as (Hback2 & H2). split; [done|]. intros Hhas.
      rewrite <- (hasEmbeddedType_typeName _ _ _ _ _ _ Hinst2 Hinst HtypeName)
        in Hhas.
      apply (embeddedTypeOf_is_Some _ _ _ Hemb2) in Hhas as [embedded ->].
      destruct H2 as (table & _ & ->). eauto.
Qed.

(** C7. A struct projected with offsets enabled has one row per field, in
    field order, each for the field's instantiated type; the offset of a
    row is the sum of the total sizes of the rows before it, starting at 0
    with nothing added in between.  Rows of total sizes [4, 2, 1, 1] have
    the offsets [0, 4, 6, 7]. *)
Theorem offsets_accumulate (fuel : nat) (instantiatedType : InstantiatedType)
    (pathId : PathId) (seenTypes seenTypes' : SeenTypes) (table : Doc) :
  classIs (it_typeDef instantiatedType) "struct" = true →
  renderTypeAsTable true (S fuel) instantiatedType pathId seenTypes
    = Ok (table, seenTypes') →
  ∃ fields rows,
    td_fields (it_typeDef instantiatedType) = Some fields
    ∧ table = StructTable rows
    ∧ Forall2 (λ field row,
                 row_name row = p_name field
                 ∧ instantiateType fuel
                     (processGenerics field (it_typeArgs instantiatedType))
                   = Ok (row_type row))
        fields rows
    ∧ (∀ (i : nat) row, rows !! i = Some row →
         row_offset row = Some (sumTotalSizes (row_type <$> take i rows)))
    ∧ ((it_totalSize ∘ row_type) <$> rows = [4; 2; 1; 1] →
       row_offset <$> rows = [Some 0; Some 4; Some 6; Some 7]).
Proof.
  intros Hstruct (fields & rows & Hfields & -> & Hrows)%renderTypeAsTable_struct;
    [|done].
  exists fields, rows. do 2 (split; [done|]).
  destruct (renderFields_offsets _ _ _ _ _ _ _ _ _ _ Hrows) as [Hall Hoffsets].
  split; [done|].
  assert (∀ (i : nat) row, rows !! i = Some row →
            row_offset row = Some (sumTotalSizes (row_type <$> take i rows)))
    as Hsums.
  { intros i row Hrow. by rewrite (Hoffsets _ _ Hrow). }
  split; [done|].
  destruct rows as [|r0 [|r1 [|r2 [|r3 [|r4 rows]]]]]; try done.
  intros [= H0 H1 H2 H3]. simpl in *.
  rewrite (Hsums 0%nat r0 eq_refl), (Hsums 1%nat r1 eq_refl),
    (Hsums 2%nat r2 eq_refl), (Hsums 3%nat r3 eq_refl).
  unfold sumTotalSizes. simpl. rewrite H0, H1, H2. done.
Qed.

(** C8, as the program has it: for a class tag other than [struct],
    [bitfield] and [enum] the projection throws, but what it throws is the
    [ReferenceError] raised while the message is built, which names the
    unbound identifier and not the class; it is never the
    unhandled-class error. *)
Theorem unhandled_class_is_reference_error (showOffsets : bool) (fuel : nat)
    (instantiatedType : InstantiatedType) (pathId : PathId)
    (seenTypes : SeenTypes) (cls : string) :
  td_class (it_typeDef instantiatedType) = Some cls →
  cls ≠ "struct" → cls ≠ "bitfield" → cls ≠ "enum" →
  renderTypeAsTable showOffsets (S fuel) instantiatedType pathId seenTypes
    = Throw (ReferenceError "typeDef")
  ∧ renderTypeAsTable showOffsets (S fuel) instantiatedType pathId seenTypes
    ≠ Throw (UnhandledTypeClassError cls)
  ∧ errorMessage (ReferenceError "typeDef") = "typeDef is not defined".
Proof.
  intros Hcls Hstruct Hbitfield Henum.
  assert (renderTypeAsTable showOffsets (S fuel) instantiatedType pathId
            seenTypes = Throw (ReferenceError "typeDef")) as ->.
  { simpl. unfold renderTypeBody, classIs. rewrite Hcls.
    rewrite !bool_decide_eq_false_2; [done | congruence..]. }
  done.
Qed.
End RenderClaims.

(** ** The projector on the example schemas *)

Lemma same_signature_is_back_reference_witness :
  (renderFields true (instantiateType exampleDefs "Twice" 1)
     (renderTypeAsTable exampleDefs "Twice" true 1) None (Some [""])
     [field "first" "Flags"; field "second" "Flags"] 0 ∅
     = Ok (twiceRows, twiceSeen)
   ∧ hasSeen twiceSeen "Flags<undefined>" = Some [""; "first"]
   ∧ ∀ later, later ∈ tail twiceRows →
       it_typeName (row_type later) = "Flags" →
       it_typeArgs (row_type later) = None →
       row_embedded later = None ∧ row_backref later = Some [""; "first"])
  ∧ renderFields true (instantiateType exampleDefs "Anonymous" 1)
      (renderTypeAsTable exampleDefs "Anonymous" true 1) None (Some [""])
      [mkParams None "Flags" None None None None None; field "second" "Flags"]
      0 ∅
      = Ok (anonymousRows, {["Flags<undefined>" := Some [""; "second"]]})
  ∧ ∀ second laterRows', tail anonymousRows = second :: laterRows' →
      it_typeName (row_type second) = "Flags" →
      it_typeArgs (row_type second) = None →
      row_backref second = None ∧ is_Some (row_embedded second).
Proof.
  assert (renderFields true (instantiateType exampleDefs "Twice" 1)
            (renderTypeAsTable exampleDefs "Twice" true 1) None (Some [""])
            [field "first" "Flags"; field "second" "Flags"] 0 ∅
          = Ok (twiceRows, twiceSeen)) as Hrun by (vm_compute; reflexivity).
  assert (renderFields true (instantiateType exampleDefs "Anonymous" 1)
            (renderTypeAsTable exampleDefs "Anonymous" true 1) None (Some [""])
            [mkParams None "Flags" None None None None None;
             field "second" "Flags"] 0 ∅
          = Ok (anonymousRows, {["Flags<undefined>" := Some [""; "second"]]}))
    as Hanonymous by (vm_compute; reflexivity).
  split; [split; [exact Hrun|] | split; [exact Hanonymous|]].
  - destruct (same_signature_is_back_reference exampleDefs "Twice" true 1 None
                [""] (field "first" "Flags") [field "second" "Flags"] 0 ∅
                twiceSeen twiceRows Hrun)
      as (first & laterRows & Hrows & Hnamed & _).
    injection Hrows as <- <-.
    destruct (Hnamed "first" eq_refl ltac:(discriminate)) as [_ Hmain].
    destruct (Hmain eq_refl) as (_ & Hrecorded & Hlater).
    split; [exact Hrecorded|].
    intros later Hin HtypeName HtypeArgs.
    destruct (Hlater later Hin HtypeName HtypeArgs) as [Hnone Hlink].
    split; [exact Hnone | exact (Hlink eq_refl)].
  - destruct (same_signature_is_back_reference exampleDefs "Anonymous" true 1
                None [""] (mkParams None "Flags" None None None None None)
                [field "second" "Flags"] 0 ∅ _ anonymousRows Hanonymous)
      as (first & laterRows & Hrows & _ & Hunnamed).
    injection Hrows as <- <-.
    destruct (Hunnamed eq_refl) as [_ Hmain].
    destruct (Hmain eq_refl) as [_ Hnext].
    intros second laterRows' Htail HtypeName HtypeArgs.
    destruct (Hnext second laterRows' Htail HtypeName HtypeArgs)
      as [Hback Hexpanded].
    split; [exact Hback | exact (Hexpanded eq_refl)].
Defined.

Lemma same_signature_is_back_reference_counterexample :
  ¬ dedupAsStated exampleDefs "Anonymous" true 2
      (instanceOf "Anonymous" anonymousDef 8) (Some [""]).
Proof.
  intros H.
  assert (renderTypeAsTable exampleDefs "Anonymous" true 2
            (instanceOf "Anonymous" anonymousDef 8) (Some [""]) ∅
          = Ok (StructTable anonymousRows,
                {["Flags<undefined>" := Some [""; "second"]]})) as Hrun
    by (vm_compute; reflexivity).
  destruct (H _ _ 0%nat 1%nat _ _ Hrun ltac:(lia) eq_refl eq_refl eq_refl
              eq_refl ltac:(by eexists)) as [Hnone _].
  discriminate Hnone.
Qed.

Lemma offsets_accumulate_witness :
  renderTypeAsTable exampleDefs "Packed" true 2 (instanceOf "Packed" packedDef 8)
    (Some [""]) ∅ = Ok (StructTable packedRows, packedSeen)
  ∧ (it_totalSize ∘ row_type) <$> packedRows = [4; 2; 1; 1]
  ∧ row_offset <$> packedRows = [Some 0; Some 4; Some 6; Some 7].
Proof.
  assert (renderTypeAsTable exampleDefs "Packed" true 2
            (instanceOf "Packed" packedDef 8) (Some [""]) ∅
          = Ok (StructTable packedRows, packedSeen)) as Hrun
    by (vm_compute; reflexivity).
  split; [exact Hrun|]. split; [reflexivity|].
  destruct (offsets_accumulate exampleDefs "Packed" 1
              (instanceOf "Packed" packedDef 8) (Some [""]) ∅ packedSeen
              (StructTable packedRows) eq_refl Hrun)
    as (fields & rows & _ & Htable & _ & _ & Hexample).
  injection Htable as <-. apply Hexample. reflexivity.
Defined.

Lemma unhandled_class_is_reference_error_witness :
  td_class blobDef = Some "union"
  ∧ renderTypeAsTable exampleDefs "Blob" true 1 (instanceOf "Blob" blobDef 4)
      (Some [""]) ∅ = Throw (ReferenceError "typeDef").
Proof.
  split; [reflexivity|].
  apply (unhandled_class_is_reference_error exampleDefs "Blob" true 0
           (instanceOf "Blob" blobDef 4) (Some [""]) ∅ "union" eq_refl);
    discriminate.
Defined.

(** The whole renderer on a page whose entry type has the class [union]. *)
Example renderStructYaml_blob :
  renderStructYaml 2 {["Blob" := blobDef]} "Blob" true None
    = Throw (ReferenceError "typeDef").
Proof. vm_compute. reflexivity. Qed.

(** The end-to-end example: [magic] at 0, [flags] at 4 with its bitfield
    table beneath, and no assertion error. *)
Example renderStructYaml_header :
  renderStructYaml 3 {["Header" := headerDef; "Flags" := flagsDef]} "Header"
    true None
    = Ok (StructTable
            [mkFieldRow (Some "magic") (Some [""; "magic"]) (Some 0)
               uint32Instance None None;
             mkFieldRow (Some "flags") (Some [""; "flags"]) (Some 4)
               flagsInstance None (Some (flagsTable (Some [""; "flags"])))]).
Proof. vm_compute. reflexivity. Qed.

(** The top-level render of [Twice]: the second field is a back-reference. *)
Example renderStructYaml_twice :
  renderStructYaml 3 exampleDefs "Twice" true None = Ok (StructTable twiceRows).
Proof. vm_compute. reflexivity. Qed.

(** The top-level render of [Anonymous]: the first field has no name, and
    the second one is expanded again. *)
Example renderStructYaml_anonymous :
  renderStructYaml 3 exampleDefs "Anonymous" true None
    = Ok (StructTable anonymousRows).
Proof. vm_compute. reflexivity. Qed.


(** * Further properties *)

(** ** Generic substitution, further *)

(** X1. Placeholders pass through: when neither the type nor any value of
    the type arguments is bound (to a non-empty name) by the bindings, the
    substitution returns the parameters unchanged. *)
Theorem processGenerics_unbound (genericParams : TypeParams) (bindings : TypeArgs) :
  truthyStr (lookupArg bindings (p_type genericParams)) = None →
  (∀ args k v, p_typeArgs genericParams = Some args → (k, v) ∈ args →
               truthyStr (lookupArg bindings v) = None) →
  processGenerics genericParams (Some bindings) = genericParams.
Proof.
  destruct genericParams as [name type args size count labels comments].
  simpl. intros Htype Hargs. unfold processGenerics, substName. simpl.
  rewrite Htype. f_equal. destruct args as [args|]; [|done]. simpl.
  f_equal. apply substArgs_unbound. intros k v. by apply Hargs.
Qed.

(** X2. The substitution changes nothing but type names: the keys of the
    type arguments and their order, and the name, size, count, labels and
    comments of the parameters are kept, whatever the bindings. *)
Theorem processGenerics_keeps_shape (genericParams : TypeParams)
    (typeArgs : option TypeArgs) :
  let substituted := processGenerics genericParams typeArgs in
  p_name substituted = p_name genericParams
  ∧ p_size substituted = p_size genericParams
  ∧ p_count substituted = p_count genericParams
  ∧ p_labels substituted = p_labels genericParams
  ∧ p_comments substituted = p_comments genericParams
  ∧ option_map (map fst) (p_typeArgs substituted)
    = option_map (map fst) (p_typeArgs genericParams).
Proof.
  destruct typeArgs as [bindings|]; simpl; [|done].
  repeat split. destruct (p_typeArgs genericParams) as [args|]; [|done].
  simpl. f_equal. unfold substArgs. rewrite map_map. by apply map_ext.
Qed.

(** X3. Two substitution layers compose: substituting by [inner] and then
    by [outer] is one substitution by the bindings of [inner] with their
    values substituted by [outer], followed by the bindings of [outer],
    provided [inner] binds no placeholder to the empty name. *)
Theorem processGenerics_compose (genericParams : TypeParams)
    (inner outer : TypeArgs) :
  (∀ k v, (k, v) ∈ inner → v ≠ "") →
  processGenerics (processGenerics genericParams (Some inner)) (Some outer)
    = processGenerics genericParams (Some (substArgs outer inner ++ outer)).
Proof.
  intros Hinner.
  assert (∀ v, substName outer (substName inner v)
               = substName (substArgs outer inner ++ outer) v) as Hname.
  { intros v. unfold substName at 2 3.
    rewrite lookupArg_app, lookupArg_substArgs.
    destruct (lookupArg inner v) as [w|] eqn:Hw; simpl.
    - assert (w ≠ "") as Hne by (by eapply Hinner, lookupArg_elem_of).
      unfold truthyStr. rewrite !decide_False; auto using substName_nonempty.
    - done. }
  destruct genericParams as [name type args size count labels comments].
  unfold processGenerics. simpl. rewrite Hname. f_equal.
  destruct args as [args|]; [|done]. simpl. f_equal.
  unfold substArgs at 1 2 4. rewrite map_map.
  apply map_ext. intros [k v]. simpl. by rewrite Hname.
Qed.

Lemma processGenerics_unbound_witness :
  truthyStr (lookupArg [("T", "uint32")] "Flags") = None
  ∧ processGenerics (field "flags" "Flags") (Some [("T", "uint32")])
      = field "flags" "Flags".
Proof.
  split; [reflexivity|].
  apply (processGenerics_unbound (field "flags" "Flags") [("T", "uint32")]);
    [reflexivity | discriminate].
Defined.

Lemma processGenerics_compose_witness :
  processGenerics
    (processGenerics (mkParams (Some "value") "Box" (Some [("T", "U")]) None
                        None None None) (Some [("U", "V")]))
    (Some [("V", "uint32")])
  = mkParams (Some "value") "Box" (Some [("T", "uint32")]) None None None None.
Proof.
  rewrite (processGenerics_compose _ [("U", "V")] [("V", "uint32")]).
  - reflexivity.
  - intros k v [[= _ ->]|Hin]%elem_of_cons; [done|]. by apply elem_of_nil in Hin.
Defined.


(** ** Invariants of the instantiator *)

Section InstantiateInvariants.
Variable typeDefs : gmap string TypeDef.
Variable entryType : string.

Abbreviation instantiateType := (instantiateType typeDefs entryType).
Abbreviation determineSingleSize := (determineSingleSize entryType).

Lemma countOrOne_nonzero (count : option Z) : countOrOne count ≠ 0.
Proof.
  unfold countOrOne, truthyZ. destruct count as [c|]; [|done].
  by case_decide.
Qed.

Lemma determineSingleSize_nonzero
    (instantiate : TypeParams → Outcome InstantiatedType) (typeName : string)
    (size : option Z) (typeArgs : option TypeArgs) (typeDef : TypeDef) (s : Z) :
  determineSingleSize instantiate typeName size typeArgs typeDef = Ok s → s ≠ 0.
Proof.
  unfold determineSingleSize.
  destruct (truthyZ size) as [s'|] eqn:Hsize.
  { intros [= <-]. by apply truthyZ_Some in Hsize as [_ ?]. }
  destruct (truthyZ (td_size typeDef)) as [s'|] eqn:Hdef.
  { intros [= <-]. by apply truthyZ_Some in Hdef as [_ ?]. }
  destruct (classIs typeDef "struct"); [|done].
  destruct (td_fields typeDef) as [fields|]; [|done].
  intros (sum & _ & H)%bind_Ok.
  destruct (truthyZ (Some sum)) as [s'|] eqn:Hsum; [|done].
  injection H as <-. by apply truthyZ_Some in Hsum as [_ ?].
Qed.

Lemma mergeExtends_plain (instantiate : TypeParams → Outcome InstantiatedType)
    (typeArgs : option TypeArgs) (typeDef : TypeDef) :
  td_extends typeDef = None →
  mergeExtends instantiate typeArgs typeDef = Ok typeDef.
Proof. intros H. unfold mergeExtends. by rewrite H. Qed.

(** A resolved request, taken apart. *)
Lemma instantiateType_resolved_Ok (fuel : nat) (typeParams : TypeParams)
    (typeDef : TypeDef) (r : InstantiatedType) :
  typeDefs !! p_type typeParams = Some typeDef →
  classIs typeDef "alias" = false →
  instantiateType (S fuel) typeParams = Ok r →
  ∃ merged singleSize,
    mergeExtends (instantiateType fuel) (p_typeArgs typeParams) typeDef = Ok merged
    ∧ determineSingleSize (instantiateType fuel) (p_type typeParams)
        (p_size typeParams) (p_typeArgs typeParams) merged = Ok singleSize
    ∧ checkedResult typeParams merged singleSize = Ok r.
Proof.
  intros Hdef Halias. rewrite (instantiateType_resolved _ _ _ _ _ Hdef Halias).
  intros (merged & Hmerged & (s & Hs & Hr)%bind_Ok)%bind_Ok. eauto.
Qed.

(** Induction over the alias hops of a successful request. *)
Lemma instantiateType_ind_resolved (P : InstantiatedType → Prop) :
  (∀ fuel typeParams typeDef r,
     typeDefs !! p_type typeParams = Some typeDef →
     classIs typeDef "alias" = false →
     instantiateType (S fuel) typeParams = Ok r → P r) →
  ∀ fuel typeParams r, instantiateType fuel typeParams = Ok r → P r.
Proof.
  intros Hresolved fuel.
  induction fuel as [|fuel IH]; intros typeParams r; [done|].
  destruct (typeDefs !! p_type typeParams) as [typeDef|] eqn:Hdef;
    [|simpl; unfold instantiateBody; by rewrite Hdef].
  destruct (classIs typeDef "alias") eqn:Halias.
  - rewrite (instantiateType_alias _ _ _ _ _ Hdef Halias). apply IH.
  - by eapply Hresolved.
Qed.

(** X4. No instantiated type is empty: the single size and the total size
    of every result are different from 0. *)
Theorem instantiated_sizes_nonzero (fuel : nat) (typeParams : TypeParams)
    (r : InstantiatedType) :
  instantiateType fuel typeParams = Ok r →
  it_singleSize r ≠ 0 ∧ it_totalSize r ≠ 0.
Proof.
  revert fuel typeParams r. apply instantiateType_ind_resolved.
  intros fuel typeParams typeDef r Hdef Halias Hrun.
  destruct (instantiateType_resolved_Ok _ _ _ _ Hdef Halias Hrun)
    as (merged & s & _ & Hs%determineSingleSize_nonzero & ->%checkedResult_Ok).
  simpl. split; [done|].
  pose proof (countOrOne_nonzero (p_count typeParams)). lia.
Qed.

Lemma instantiateType_assertSize (fuel : nat) (typeParams : TypeParams)
    (r : InstantiatedType) (assertSize : Z) :
  instantiateType fuel typeParams = Ok r →
  td_assertSize (it_typeDef r) = Some assertSize →
  assertSize ≠ 0 →
  it_totalSize r = assertSize.
Proof.
  revert fuel typeParams r. apply (instantiateType_ind_resolved (λ r, _ → _ → _)).
  intros fuel typeParams typeDef r Hdef Halias Hrun.
  destruct (instantiateType_resolved_Ok _ _ _ _ Hdef Halias Hrun)
    as (merged & s & _ & _ & Hr).
  pose proof (checkedResult_Ok _ _ _ _ Hr) as ->. simpl.
  intros Hassert Hnz. revert Hr. unfold checkedResult.
  rewrite (proj2 (truthyZ_Some _ _) (conj Hassert Hnz)).
  by case_decide.
Qed.

(** X5. Every result meets the assertion of the definition it carries: when
    the returned (merged) definition has an [assertSize] other than 0, the
    total size of the result is that [assertSize]. *)
Theorem instantiated_meets_assertSize (fuel : nat) (typeParams : TypeParams)
    (r : InstantiatedType) (assertSize : Z) :
  instantiateType fuel typeParams = Ok r →
  td_assertSize (it_typeDef r) = Some assertSize →
  assertSize ≠ 0 →
  it_totalSize r = assertSize.
Proof. apply instantiateType_assertSize. Qed.

(** X6. Aliases are resolved away: the type name of a result is registered,
    its definition is not an alias, and the returned definition has the
    class of the registered one; it is the registered definition itself
    unless that is a struct that extends another.  For a request that does
    not name an alias the result echoes the request's type, type arguments,
    size and count. *)
Theorem instantiated_names_resolved_type (fuel : nat) (typeParams : TypeParams)
    (r : InstantiatedType) :
  instantiateType fuel typeParams = Ok r →
  (∃ typeDef,
     typeDefs !! it_typeName r = Some typeDef
     ∧ td_class typeDef ≠ Some "alias"
     ∧ td_class (it_typeDef r) = td_class typeDef
     ∧ (td_extends typeDef = None ∨ td_class typeDef ≠ Some "struct" →
        it_typeDef r = typeDef))
  ∧ (∀ typeDef, typeDefs !! p_type typeParams = Some typeDef →
                td_class typeDef ≠ Some "alias" →
       it_typeName r = p_type typeParams
       ∧ it_typeArgs r = p_typeArgs typeParams
       ∧ it_variableSize r = p_size typeParams
       ∧ it_count r = p_count typeParams).
Proof.
  intros Hrun. split.
  - revert fuel typeParams r Hrun. apply instantiateType_ind_resolved.
    intros fuel typeParams typeDef r Hdef Halias Hrun.
    destruct (instantiateType_resolved_Ok _ _ _ _ Hdef Halias Hrun)
      as (merged & s & Hmerged & _ & ->%checkedResult_Ok).
    exists typeDef. simpl. split; [done|].
    split; [by intros ?%classIs_true; congruence|].
    split; [by eapply mergeExtends_class|].
    revert Hmerged. unfold mergeExtends.
    intros Hmerged [Hext|Hcls].
    + rewrite Hext in Hmerged. congruence.
    + destruct (td_extends typeDef); [|congruence].
      destruct (classIs typeDef "struct") eqn:Hstruct; [|congruence].
      by apply classIs_true in Hstruct.
  - intros typeDef Hdef Hcls. destruct fuel as [|fuel]; [done|].
    assert (classIs typeDef "alias" = false) as Halias.
    { apply bool_decide_eq_false. done. }
    destruct (instantiateType_resolved_Ok _ _ _ _ Hdef Halias Hrun)
      as (merged & s & _ & _ & Hr).
    by rewrite (checkedResult_Ok _ _ _ _ Hr).
Qed.

Lemma sumFieldSizes_app (instantiate : TypeParams → Outcome InstantiatedType)
    (typeArgs : option TypeArgs) (front back : list TypeParams) (s : Z) :
  sumFieldSizes instantiate typeArgs (front ++ back) s
    = sumFieldSizes instantiate typeArgs front s
        ≫= sumFieldSizes instantiate typeArgs back.
Proof.
  revert s. induction front as [|f rest IH]; intros s; simpl; [done|].
  destruct (instantiate (processGenerics f typeArgs)); simpl; [apply IH | done..].
Qed.

(** X7. The error of a field is the error of the struct: when the size of a
    struct has to be summed from its fields (no non-zero size in the request
    or the definition) and a field fails to instantiate after the fields
    before it succeeded, the struct fails with that field's error. *)
Theorem field_error_propagates (fuel : nat) (typeParams : TypeParams)
    (typeDef merged : TypeDef) (before after : list TypeParams)
    (failing : TypeParams) (instantiated : list InstantiatedType) (e : JsError) :
  typeDefs !! p_type typeParams = Some typeDef →
  classIs typeDef "struct" = true →
  mergeExtends (instantiateType fuel) (p_typeArgs typeParams) typeDef = Ok merged →
  truthyZ (p_size typeParams) = None →
  truthyZ (td_size merged) = None →
  td_fields merged = Some (before ++ failing :: after) →
  fieldsInstantiate (instantiateType fuel) (p_typeArgs typeParams)
    before instantiated →
  instantiateType fuel (processGenerics failing (p_typeArgs typeParams))
    = Throw e →
  ∀ fuel', (fuel < fuel')%nat → instantiateType fuel' typeParams = Throw e.
Proof.
  intros Hdef Hstruct Hmerged Hsize Hdefsize Hfields Hbefore Hfail fuel' Hfuel.
  assert (instantiateType (S fuel) typeParams = Throw e) as Hrun;
    [|by rewrite (instantiateType_mono _ _ (S fuel) fuel'), Hrun;
         [| lia | rewrite Hrun]].
  rewrite (instantiateType_resolved _ _ _ _ _ Hdef
             (classIs_struct_not_alias _ Hstruct)), Hmerged. simpl.
  assert (classIs merged "struct" = true) as Hstruct'.
  { apply classIs_true. rewrite (mergeExtends_class _ _ _ _ Hmerged).
    by apply classIs_true. }
  unfold determineSingleSize. rewrite Hsize, Hdefsize, Hstruct', Hfields.
  rewrite sumFieldSizes_app.
  assert (sumFieldSizes (instantiateType fuel) (p_typeArgs typeParams) before 0
          = Ok (sumTotalSizes instantiated + 0)) as ->.
  { apply sumFieldSizes_Ok. eauto. }
  simpl. by rewrite Hfail.
Qed.

(** X8. A struct that extends another and declares no [assertSize] of its
    own is checked against its parent's: the definition it returns carries
    the parent's [assertSize], so when that is not 0 the total sizes of the
    child and of the parent are both equal to it. *)
Theorem extends_inherits_assertSize (fuel : nat) (typeParams : TypeParams)
    (typeDef : TypeDef) (extends : TypeParams) (r : InstantiatedType) :
  typeDefs !! p_type typeParams = Some typeDef →
  classIs typeDef "struct" = true →
  td_extends typeDef = Some extends →
  td_assertSize typeDef = None →
  instantiateType (S fuel) typeParams = Ok r →
  ∃ parent,
    instantiateType fuel (processGenerics extends (p_typeArgs typeParams))
      = Ok parent
    ∧ td_assertSize (it_typeDef r) = td_assertSize (it_typeDef parent)
    ∧ ∀ assertSize,
        td_assertSize (it_typeDef parent) = Some assertSize →
        assertSize ≠ 0 →
        it_totalSize r = assertSize ∧ it_totalSize parent = assertSize.
Proof.
  intros Hdef Hstruct Hext Hnone Hrun.
  destruct (instantiateType_resolved_Ok _ _ _ _ Hdef
              (classIs_struct_not_alias _ Hstruct) Hrun)
    as (merged & s & Hmerged & _ & Hr).
  destruct (mergeExtends_Ok _ _ _ _ _ Hstruct Hext Hmerged)
    as (parent & parentFields & fields & Hparent & _ & _ & ->).
  exists parent. split; [done|].
  assert (td_assertSize (it_typeDef r) = td_assertSize (it_typeDef parent))
    as Hsame.
  { rewrite (checkedResult_Ok _ _ _ _ Hr). simpl. by rewrite Hnone. }
  split; [done|]. intros assertSize Hassert Hnz. split.
  - eapply instantiateType_assertSize; [done| |done]. by rewrite Hsame.
  - by eapply instantiateType_assertSize.
Qed.

(** X9. No cycle is detected: a request for an alias that expands to itself
    (its [type] is its own name, or it declares none) and declares no type
    arguments never returns and never throws, whatever the fuel, the size
    and the count, provided the type arguments of the request, if it has
    any, do not have the alias's own name among their keys.  (A request
    that binds the alias's own name to another type leaves the cycle at the
    first hop.) *)
Theorem self_alias_never_returns (fuel : nat) (name : string) (typeDef : TypeDef)
    (typeArgs : option TypeArgs) (size count : option Z) :
  typeDefs !! name = Some typeDef →
  classIs typeDef "alias" = true →
  td_type typeDef = None ∨ td_type typeDef = Some name →
  td_typeArgs typeDef = None →
  (∀ bindings, typeArgs = Some bindings → lookupArg bindings name = None) →
  instantiateType fuel (request name typeArgs size count) = OutOfFuel.
Proof.
  intros Hdef Halias Htype Hargs. revert typeArgs size count.
  induction fuel as [|fuel IH]; intros typeArgs size count Hfree; [done|].
  rewrite (instantiateType_alias _ _ _ (request name typeArgs size count) _
             Hdef Halias).
  rewrite instantiateType_request.
  unfold aliasHop, spreadAlias. simpl. rewrite Hargs. simpl.
  assert (default name (td_type typeDef) = name) as ->
    by (by destruct Htype as [-> | ->]).
  destruct typeArgs as [bindings|]; simpl.
  - unfold substName at 1. rewrite (Hfree bindings eq_refl). simpl.
    apply IH. intros ? [= <-].
    by rewrite lookupArg_substArgs, (Hfree bindings eq_refl).
  - by apply IH.
Qed.

(** X10. Nor is a struct that contains itself: when the size of a struct
    without [extends] has to be summed from its fields and its first field
    has the struct's own type, with no type arguments and no non-zero size,
    the request never returns and never throws, provided the type arguments
    of the request, if it has any, do not bind the struct's own name to a
    non-empty type name.  (A request that binds the struct's own name to
    another type has the field instantiated as that type.) *)
Theorem self_struct_never_returns (fuel : nat) (name : string) (typeDef : TypeDef)
    (first : TypeParams) (rest : list TypeParams) (typeArgs : option TypeArgs)
    (size count : option Z) :
  typeDefs !! name = Some typeDef →
  classIs typeDef "struct" = true →
  td_extends typeDef = None →
  truthyZ (td_size typeDef) = None →
  td_fields typeDef = Some (first :: rest) →
  p_type first = name →
  p_typeArgs first = None →
  truthyZ (p_size first) = None →
  truthyZ size = None →
  (∀ bindings, typeArgs = Some bindings →
     truthyStr (lookupArg bindings name) = None) →
  instantiateType fuel (request name typeArgs size count) = OutOfFuel.
Proof.
  intros Hdef Hstruct Hext Hdefsize Hfields Htype Hargs Hfirst.
  revert typeArgs size count.
  induction fuel as [|fuel IH]; intros typeArgs size count Hsize Hfree; [done|].
  rewrite (instantiateType_resolved _ _ _ (request name typeArgs size count) _
             Hdef (classIs_struct_not_alias _ Hstruct)).
  rewrite (mergeExtends_plain _ _ _ Hext). simpl.
  unfold determineSingleSize. rewrite Hsize, Hdefsize, Hstruct, Hfields. simpl.
  rewrite instantiateType_request.
  assert (p_type (processGenerics first typeArgs) = name
          ∧ p_typeArgs (processGenerics first typeArgs) = None
          ∧ p_size (processGenerics first typeArgs) = p_size first)
    as (-> & -> & ->).
  { destruct typeArgs as [bindings|]; simpl; [|done].
    rewrite Htype, Hargs. unfold substName.
    by rewrite (Hfree bindings eq_refl). }
  by rewrite IH.
Qed.
End InstantiateInvariants.

(** ** The intrinsic types *)

Lemma INTRINSIC_TYPE_DEFS_primitive (name : string) (typeDef : TypeDef) :
  INTRINSIC_TYPE_DEFS !! name = Some typeDef →
  ∃ size args, typeDef = primitiveDef size args ∧ size ≠ Some 0.
Proof.
  intros Hin%elem_of_list_to_map_2.
  repeat (apply elem_of_cons in Hin as [[= -> ->]|Hin];
          [eexists _, _; split; [reflexivity | discriminate]|]).
  by apply elem_of_nil in Hin.
Qed.

(** X11. An intrinsic that the page does not redefine resolves in one step,
    whatever else the registry holds: its single size is the request's size
    when that is present and not 0, otherwise its own fixed size; the
    intrinsics without a size ([pad], [UTF-8], [UTF-16]) fail with the
    unresolvable-size error when the request gives none. *)
Theorem intrinsic_instantiates (typeDefsArg : gmap string TypeDef)
    (entryType : string) (fuel : nat) (name : string) (typeDef : TypeDef)
    (typeArgs : option TypeArgs) (size count : option Z) :
  INTRINSIC_TYPE_DEFS !! name = Some typeDef →
  typeDefsArg !! name = None →
  instantiateType (typeDefsArg ∪ INTRINSIC_TYPE_DEFS) entryType (S fuel)
    (request name typeArgs size count)
  = match spread (td_size typeDef) (truthyZ size) with
    | Some singleSize =>
        Ok (mkInstantiated typeDef (singleSize * countOrOne count) singleSize
              size count typeArgs name)
    | None => Throw (UnresolvableSizeError name entryType)
    end.
Proof.
  intros Hintrinsic Huser.
  destruct (INTRINSIC_TYPE_DEFS_primitive _ _ Hintrinsic)
    as (fixed & args & -> & Hfixed).
  simpl. unfold instantiateBody. simpl.
  rewrite (lookup_union_r _ _ _ Huser), Hintrinsic. simpl.
  unfold determineSingleSize. simpl.
  destruct (truthyZ size) as [s|]; simpl; [done|].
  destruct fixed as [s|]; simpl; [|done].
  rewrite decide_False by congruence. done.
Qed.

(** ** Invariants of the projector *)

Section RenderInvariants.
Variable typeDefs : gmap string TypeDef.
Variable entryType : string.

Abbreviation instantiateType := (instantiateType typeDefs entryType).
Abbreviation renderTypeAsTable := (renderTypeAsTable typeDefs entryType).

(** X12. Beneath a null path nothing is remembered: a table rendered with
    no path (the table under a field without a name, and everything nested
    in it) leaves every signature as seen or unseen as it was, so none of
    its fields can be the target of a back-reference. *)
Theorem null_path_records_nothing (showOffsets : bool) (fuel : nat)
    (instantiatedType : InstantiatedType) (seenTypes seenTypes' : SeenTypes)
    (table : Doc) :
  renderTypeAsTable showOffsets fuel instantiatedType None seenTypes
    = Ok (table, seenTypes') →
  (∀ id, hasSeen seenTypes' id = hasSeen seenTypes id)
  ∧ (∀ rows, table = StructTable rows →
             Forall (λ row, row_pathId row = None) rows).
Proof. apply renderTypeAsTable_null. Qed.

(** X13. The table of a struct ends where the struct ends: when the single
    size of a struct was summed from its fields (no non-zero size in the
    request or the returned definition), the total sizes of the rows of its
    table add up to that single size. *)
Theorem struct_rows_sum_to_singleSize (showOffsets : bool) (fuel fuel' : nat)
    (typeParams : TypeParams) (typeDef : TypeDef)
    (instantiatedType : InstantiatedType) (pathId : PathId)
    (seenTypes seenTypes' : SeenTypes) (rows : list (FieldRow Doc)) :
  typeDefs !! p_type typeParams = Some typeDef →
  classIs typeDef "struct" = true →
  truthyZ (p_size typeParams) = None →
  instantiateType fuel typeParams = Ok instantiatedType →
  truthyZ (td_size (it_typeDef instantiatedType)) = None →
  renderTypeAsTable showOffsets fuel' instantiatedType pathId seenTypes
    = Ok (StructTable rows, seenTypes') →
  sumTotalSizes (row_type <$> rows) = it_singleSize instantiatedType.
Proof.
  intros Hdef Hstruct Hsize Hrun Hdefsize Hrender.
  destruct fuel as [|fuel]; [done|].
  destruct (instantiateType_resolved_Ok _ _ _ _ _ _ Hdef
              (classIs_struct_not_alias _ Hstruct) Hrun)
    as (merged & s & Hmerged & Hs & Hr).
  apply checkedResult_Ok in Hr as ->. simpl in *.
  assert (classIs merged "struct" = true) as Hstruct'.
  { apply classIs_true. rewrite (mergeExtends_class _ _ _ _ Hmerged).
    by apply classIs_true. }
  destruct fuel' as [|fuel']; [done|].
  apply renderTypeAsTable_struct in Hrender
    as (fields & rows' & Hfields & [= <-] & Hrows); [|done].
  simpl in Hfields, Hrows.
  revert Hs. unfold determineSingleSize.
  rewrite Hsize, Hdefsize, Hstruct', Hfields.
  intros (sum & (instantiated & Hall & ->)%sumFieldSizes_Ok & Hsum)%bind_Ok.
  destruct (truthyZ (Some _)) as [s'|] eqn:Htruthy; [|done].
  injection Hsum as <-. apply truthyZ_Some in Htruthy as [[= <-] _].
  destruct (renderFields_offsets _ _ _ _ _ _ _ _ _ _ Hrows) as [Hrows' _].
  rewrite Z.add_0_r. f_equal.
  clear -Hall Hrows'. unfold fieldsInstantiate in Hall.
  revert rows Hrows'. induction Hall as [|f r fs rs Hf Hall IH];
    intros rows Hrows; inversion Hrows as [|? row ? rows' [_ Hrow] Hrest]; subst.
  { done. }
  csimpl. f_equal; [|by apply IH].
  assert (Ok (row_type row) = Ok r) as [= ->]; [|done].
  rewrite <- Hrow, <- Hf.
  apply instantiateType_deterministic; by rewrite ?Hrow, ?Hf.
Qed.
End RenderInvariants.

(** ** Bitfield and enum tables *)

Lemma shl32_spec (i : nat) :
  shl32 i = if decide (Z.of_nat i mod 32 < 31)
            then 2 ^ (Z.of_nat i mod 32)
            else - 2 ^ 31.
Proof.
  unfold shl32. rewrite Z.shiftl_1_l.
  pose proof (Z.mod_pos_bound (Z.of_nat i) 32 ltac:(lia)) as Hbound.
  destruct (decide (Z.of_nat i mod 32 < 31)) as [Hlt|Hge].
  - rewrite decide_True; [done|]. by apply Z.pow_lt_mono_r; lia.
  - replace (Z.of_nat i mod 32) with 31 by lia.
    rewrite decide_False by lia. lia.
Qed.

(** X14. A bitfield table has one row per bit, in order, named and placed
    after the bit; the mask of bit [i] is [2 ^ i] up to bit 30, it is
    negative ([- 2 ^ 31]) for bit 31, and from bit 32 on the masks start
    over: bit [i] has the mask of bit [i mod 32]. *)
Theorem bitfield_masks (instantiatedType : InstantiatedType) (pathId : PathId)
    (bits : list Bit) :
  td_bits (it_typeDef instantiatedType) = Some bits →
  ∃ rows,
    renderBitfieldAsTable instantiatedType pathId = Ok (BitfieldTable rows)
    ∧ length rows = length bits
    ∧ ∀ (i : nat) bit, bits !! i = Some bit →
        ∃ row, rows !! i = Some row
               ∧ flag_name row = bit_name bit
               ∧ flag_pathId row = joinPathId pathId (bit_name bit)
               ∧ flag_mask row = if decide (Z.of_nat i mod 32 < 31)
                                 then 2 ^ (Z.of_nat i mod 32)
                                 else - 2 ^ 31.
Proof.
  intros Hbits. unfold renderBitfieldAsTable. rewrite Hbits.
  eexists. split; [done|]. split; [by rewrite length_imap|].
  intros i bit Hbit. rewrite list_lookup_imap, Hbit. simpl.
  eexists. split; [done|]. simpl. by rewrite shl32_spec.
Qed.

(** X15. An enum table has one row per option, in order; the value of an
    option is the one it declares and, when it declares none, its position
    in the list, whatever the values of the options before it. *)
Theorem enum_values (instantiatedType : InstantiatedType) (pathId : PathId)
    (options : list EnumOption) :
  td_options (it_typeDef instantiatedType) = Some options →
  ∃ rows,
    renderEnumAsTable instantiatedType pathId = Ok (EnumTable rows)
    ∧ length rows = length options
    ∧ ∀ (i : nat) option, options !! i = Some option →
        ∃ row, rows !! i = Some row
               ∧ option_name row = opt_name option
               ∧ option_pathId row = joinPathId pathId (opt_name option)
               ∧ option_value row = match opt_value option with
                                    | Some value => value
                                    | None => Z.of_nat i
                                    end.
Proof.
  intros Hoptions. unfold renderEnumAsTable. rewrite Hoptions.
  eexists. split; [done|]. split; [by rewrite length_imap|].
  intros i option Hoption. rewrite list_lookup_imap, Hoption. simpl.
  eexists. split; [done|]. simpl. by destruct (opt_value option).
Qed.

(** ** What cannot be rendered *)

Section Unrenderable.
Variable typeDefs : gmap string TypeDef.
Variable entryType : string.

Abbreviation instantiateType := (instantiateType typeDefs entryType).
Abbreviation renderTypeAsTable := (renderTypeAsTable typeDefs entryType).

(** X16. A pointer to a type without a class cannot be rendered: for a
    field that resolves to [ptr32] or [ptr64] (with no class of its own)
    whose first type argument instantiates to a type without a class, a
    primitive for one, and whose signature is not recorded yet, the row
    throws the [ReferenceError] of the projection's [default] branch. *)
Theorem pointer_to_classless_throws (showOffsets : bool) (fuel fuel' : nat)
    (typeArgs : option TypeArgs) (pathId : PathId) (field : TypeParams)
    (offset : Z) (seenTypes : SeenTypes) (fieldType pointee : InstantiatedType)
    (args : TypeArgs) :
  instantiateType fuel (processGenerics field typeArgs) = Ok fieldType →
  truthyStr (td_class (it_typeDef fieldType)) = None →
  isPointer (it_typeName fieldType) = true →
  it_typeArgs fieldType = Some args →
  instantiateType fuel
    (request (default "undefined" (head (values args))) None None None)
    = Ok pointee →
  td_class (it_typeDef pointee) = None →
  hasSeen seenTypes (seenTypeId (it_typeName fieldType) (Some args)) = None →
  renderField showOffsets (instantiateType fuel)
    (renderTypeAsTable showOffsets (S fuel')) typeArgs pathId field offset
    seenTypes
  = Throw (ReferenceError "typeDef").
Proof.
  intros Hfield Hclass Hptr Hargs Hpointee Hnone Hseen.
  unfold renderField, embeddedTypeOf. rewrite Hfield. simpl.
  rewrite Hclass, Hptr, Hargs. unfold request in Hpointee. rewrite Hpointee.
  simpl. rewrite Hseen. simpl. unfold renderTypeBody, classIs. by rewrite Hnone.
Qed.
End Unrenderable.

(** X17. A page whose entry type instantiates to a type without a class (a
    primitive, or an alias of one) never renders: the renderer throws the
    [ReferenceError] of the projection's [default] branch. *)
Theorem classless_entry_throws (fuel : nat) (typeDefsArg : gmap string TypeDef)
    (entryType : string) (showOffsets : bool) (id : option string)
    (entry : InstantiatedType) :
  instantiateType (typeDefsArg ∪ INTRINSIC_TYPE_DEFS) entryType (S fuel)
    (request entryType None None None) = Ok entry →
  td_class (it_typeDef entry) = None →
  renderStructYaml (S fuel) typeDefsArg entryType showOffsets id
    = Throw (ReferenceError "typeDef").
Proof.
  intros Hentry Hclass. unfold renderStructYaml, request in *.
  rewrite Hentry. simpl. unfold renderTypeBody, classIs. by rewrite Hclass.
Qed.

(** ** The offsets option *)

Section ShowOffsets.
Variable typeDefs : gmap string TypeDef.
Variable entryType : string.

Abbreviation renderTypeAsTable := (renderTypeAsTable typeDefs entryType).

Section Loop.
Variable instantiate : TypeParams → Outcome InstantiatedType.
Variables renderWith renderWithout :
  InstantiatedType → PathId → SeenTypes → Outcome (Doc * SeenTypes).
Hypothesis render_strip :
  ∀ instantiatedType pathId seenTypes,
    renderWithout instantiatedType pathId seenTypes
      = '(table, seenTypes') ← renderWith instantiatedType pathId seenTypes;
        Ok (stripOffsets table, seenTypes').

Lemma renderField_strip (typeArgs : option TypeArgs) (pathId : PathId)
    (field : TypeParams) (offset : Z) (seenTypes : SeenTypes) :
  renderField false instantiate renderWithout typeArgs pathId field offset
    seenTypes
  = '(row, offset', seenTypes') ←
      renderField true instantiate renderWith typeArgs pathId field offset
        seenTypes;
    Ok (stripRow stripOffsets row, offset', seenTypes').
Proof.
  unfold renderField.
  destruct (instantiate (processGenerics field typeArgs)) as [fieldType| |];
    simpl; [|done..].
  destruct (embeddedTypeOf instantiate fieldType) as [[embedded|]| |];
    simpl; [| |done..].
  - destruct (hasSeen seenTypes _) as [firstPath|]; simpl; [done|].
    rewrite render_strip.
    by destruct (renderWith embedded _ _) as [[table seenTypes']| |].
  - by destruct (hasSeen seenTypes _).
Qed.

Lemma renderFields_strip (typeArgs : option TypeArgs) (pathId : PathId)
    (fields : list TypeParams) (offset : Z) (seenTypes : SeenTypes) :
  renderFields false instantiate renderWithout typeArgs pathId fields offset
    seenTypes
  = '(rows, seenTypes') ←
      renderFields true instantiate renderWith typeArgs pathId fields offset
        seenTypes;
    Ok (map (stripRow stripOffsets) rows, seenTypes').
Proof.
  revert offset seenTypes.
  induction fields as [|field rest IH]; intros offset seenTypes; [done|].
  simpl. rewrite renderField_strip.
  destruct (renderField true _ _ _ _ _ _ _) as [[[row offset'] seenTypes1]| |];
    simpl; [|done..].
  rewrite IH.
  by destruct (renderFields true _ _ _ _ _ _ _) as [[rows seenTypes2]| |].
Qed.
End Loop.

(** X18. Of what the projector computes for a table (lines 218-236: the
    rows with their names, paths, offsets, instantiated types,
    back-references and nested tables, and the registry of seen types), the
    offsets option decides the presence of the offset cells and nothing
    else: rendered without offsets, a type gives the outcome it gives with
    offsets (the same error, or the same registry and the same rows) with
    the offset cells of the table and of every nested table left out.  Two
    attributes of the markup around the rows depend on the option as well,
    the width of the header cells (line 203) and the [colspan] of the
    [embedded-type] row (line 259); they are not part of the rows and this
    property does not speak of them. *)
Theorem showOffsets_only_offsets (fuel : nat)
    (instantiatedType : InstantiatedType) (pathId : PathId)
    (seenTypes : SeenTypes) :
  renderTypeAsTable false fuel instantiatedType pathId seenTypes
  = '(table, seenTypes') ←
      renderTypeAsTable true fuel instantiatedType pathId seenTypes;
    Ok (stripOffsets table, seenTypes').
Proof.
  revert instantiatedType pathId seenTypes.
  induction fuel as [|fuel IH]; intros instantiatedType pathId seenTypes; [done|].
  simpl. unfold renderTypeBody, renderStructAsTable.
  destruct (classIs _ "struct").
  - destruct (td_fields _) as [fields|]; [|done].
    rewrite (renderFields_strip _ _ _ IH).
    by destruct (renderFields true _ _ _ _ _ _ _) as [[rows seenTypes']| |].
  - destruct (classIs _ "bitfield").
    { unfold renderBitfieldAsTable. by destruct (td_bits _). }
    destruct (classIs _ "enum"); [|done].
    unfold renderEnumAsTable. by destruct (td_options _).
Qed.
End ShowOffsets.

(** ** Hexadecimal cells *)

Lemma upper_hexDigit (d : Z) :
  0 ≤ d < 16 → hexDigitValue (upperAscii (hexDigit d)) = Some d.
Proof.
  intros Hd.
  assert (d = 0 ∨ d = 1 ∨ d = 2 ∨ d = 3 ∨ d = 4 ∨ d = 5 ∨ d = 6 ∨ d = 7
          ∨ d = 8 ∨ d = 9 ∨ d = 10 ∨ d = 11 ∨ d = 12 ∨ d = 13 ∨ d = 14
          ∨ d = 15) as Hcases by lia.
  repeat (destruct Hcases as [->|Hcases]; [reflexivity|]). by subst.
Qed.

Lemma toUpperCase_app (a b : string) :
  toUpperCase (a +:+ b) = toUpperCase a +:+ toUpperCase b.
Proof.
  induction a as [|c a IH]; [done|].
  change (String (upperAscii c) (toUpperCase (a +:+ b))
          = String (upperAscii c) (toUpperCase a +:+ toUpperCase b)).
  by rewrite IH.
Qed.

Lemma hexValueFrom_app (a b : string) (v : Z) :
  hexValueFrom (a +:+ b) v = hexValueFrom a v ≫= hexValueFrom b.
Proof.
  revert v. induction a as [|c a IH]; intros v; [done|].
  change (hexDigitValue c ≫= (λ d, hexValueFrom (a +:+ b) (16 * v + d))
          = (hexDigitValue c ≫= λ d, hexValueFrom a (16 * v + d))
              ≫= hexValueFrom b).
  destruct (hexDigitValue c) as [d|]; simpl; [apply IH | done].
Qed.

(** With enough fuel the digits are not empty and read back as [n]. *)
Lemma hexDigits_spec (fuel : nat) (n : Z) (acc : string) :
  0 ≤ n < 2 ^ Z.of_nat fuel →
  (0 < fuel)%nat →
  ∃ digits k,
    hexDigits fuel n acc = digits +:+ acc
    ∧ digits ≠ ""
    ∧ ∀ v, hexValueFrom (toUpperCase digits) v = Some (v * k + n).
Proof.
  revert n acc. induction fuel as [|fuel IH]; intros n acc Hn Hfuel; [lia|].
  simpl. case_decide as Hdiv.
  - exists (String (hexDigit (n mod 16)) ""), 16. split; [done|]. split; [done|].
    intros v. simpl. rewrite upper_hexDigit by (apply Z.mod_pos_bound; lia).
    simpl. f_equal. pose proof (Z.div_mod n 16 ltac:(lia)). lia.
  - assert (16 ≤ n) as Hbig.
    { destruct (decide (n < 16)); [|lia].
      exfalso. apply Hdiv, Z.div_small. lia. }
    assert (0 ≤ n / 16 < 2 ^ Z.of_nat fuel) as Hquot.
    { split; [apply Z.div_pos; lia|].
      apply Z.div_lt_upper_bound; [lia|].
      rewrite Nat2Z.inj_succ, Z.pow_succ_r in Hn by lia. lia. }
    assert (0 < fuel)%nat as Hpos.
    { destruct fuel; [|lia]. simpl in Hquot.
      assert (1 ≤ n / 16) by (apply Z.div_le_lower_bound; lia). lia. }
    destruct (IH (n / 16) (String (hexDigit (n mod 16)) acc) Hquot Hpos)
      as (digits & k & -> & Hne & Hvalue).
    exists (digits +:+ String (hexDigit (n mod 16)) ""), (16 * k).
    split; [by rewrite append_assoc|]. split.
    { by destruct digits. }
    intros v. rewrite toUpperCase_app, hexValueFrom_app, Hvalue. simpl.
    rewrite upper_hexDigit by (apply Z.mod_pos_bound; lia). simpl.
    f_equal. pose proof (Z.div_mod n 16 ltac:(lia)). lia.
Qed.

Lemma toString16_nonneg (num : Z) :
  0 ≤ num →
  ∃ digits, hexDigits (S (Z.to_nat (Z.log2 num))) num "" = digits
            ∧ digits ≠ ""
            ∧ hexValueFrom (toUpperCase digits) 0 = Some num.
Proof.
  intros Hnum.
  destruct (hexDigits_spec (S (Z.to_nat (Z.log2 num))) num "")
    as (digits & k & Hdigits & Hne & Hvalue); [|lia|].
  - split; [done|]. rewrite Nat2Z.inj_succ, Z2Nat.id by apply Z.log2_nonneg.
    destruct (decide (num = 0)) as [->|]; [done|].
    apply Z.log2_spec. lia.
  - exists digits. split; [|split; [done|]].
    + rewrite Hdigits. clear. induction digits as [|c d IH]; [done|].
      change (String c (d +:+ "") = String c d). by rewrite IH.
    + by rewrite Hvalue.
Qed.

Lemma parseHex_digit (c : ascii) (rest : string) :
  is_Some (hexDigitValue c) →
  parseHex (String "0" (String "x" (String c rest)))
    = hexValueFrom (String c rest) 0.
Proof.
  intros [d Hd].
  destruct c as [[] [] [] [] [] [] [] []]; vm_compute in Hd;
    try discriminate Hd; reflexivity.
Qed.

Lemma parseHex_renderHex (num : Z) : parseHex (renderHex num) = Some num.
Proof.
  unfold renderHex, toString16. case_decide as Hneg.
  - destruct (toString16_nonneg (- num)) as (digits & -> & _ & Hvalue); [lia|].
    change (Z.opp <$> hexValueFrom (toUpperCase digits) 0 = Some num).
    rewrite Hvalue. simpl. f_equal. lia.
  - destruct (toString16_nonneg num) as (digits & -> & Hne & Hvalue); [lia|].
    destruct digits as [|c rest]; [done|].
    change (parseHex (String "0" (String "x"
              (String (upperAscii c) (toUpperCase rest)))) = Some num).
    rewrite parseHex_digit; [done|].
    simpl in Hvalue. destruct (hexDigitValue (upperAscii c)); [eauto | done].
Qed.

(** X19. A hexadecimal cell reads back as its number: the text of
    [renderHex] is [0x], a minus sign when the number is negative, and the
    upper-case base-16 digits of its magnitude, so different numbers give
    different cells. *)
Theorem renderHex_roundtrip (num : Z) :
  parseHex (renderHex num) = Some num
  ∧ (num < 0 → renderHex num = "0x-" +:+ toUpperCase (toString16 (- num)))
  ∧ ∀ other, renderHex other = renderHex num → other = num.
Proof.
  split; [apply parseHex_renderHex|]. split.
  - intros Hneg. unfold renderHex, toString16.
    rewrite decide_True, decide_False by lia. done.
  - intros other Heq.
    assert (Some other = Some num) as [= ->]; [|done].
    by rewrite <- !parseHex_renderHex, Heq.
Qed.

(** ** The further properties on the example schemas *)

Lemma instantiated_sizes_nonzero_witness :
  instantiateType exampleDefs "Header" 2 (request "Header" None None None)
    = Ok headerInstance
  ∧ it_singleSize headerInstance ≠ 0
  ∧ it_totalSize headerInstance ≠ 0.
Proof.
  split; [reflexivity|].
  exact (instantiated_sizes_nonzero exampleDefs "Header" 2
           (request "Header" None None None) headerInstance eq_refl).
Defined.

Lemma instantiated_meets_assertSize_witness :
  instantiateType exampleDefs "Header" 2 (request "Header" None None None)
    = Ok headerInstance
  ∧ td_assertSize (it_typeDef headerInstance) = Some 8
  ∧ it_totalSize headerInstance = 8.
Proof.
  split; [reflexivity|]. split; [reflexivity|].
  apply (instantiated_meets_assertSize exampleDefs "Header" 2
           (request "Header" None None None) headerInstance 8 eq_refl eq_refl).
  discriminate.
Defined.

Lemma instantiated_names_resolved_type_witness :
  instantiateType exampleDefs "Vec3" 2 (request "Vec3" None None None)
    = Ok (mkInstantiated (primitiveDef (Some 4) None) 12 4 None (Some 3) None
            "float")
  ∧ ∃ typeDef, exampleDefs !! "float" = Some typeDef
               ∧ td_class typeDef ≠ Some "alias".
Proof.
  split; [reflexivity|].
  destruct (instantiated_names_resolved_type exampleDefs "Vec3" 2
              (request "Vec3" None None None) _ eq_refl)
    as [(typeDef & Hdef & Hclass & _) _].
  exists typeDef. split; [exact Hdef | exact Hclass].
Defined.

Lemma field_error_propagates_witness :
  (furtherDefs !! "Broken" = Some brokenDef
   ∧ instantiateType furtherDefs "Broken" 1 (field "b" "Missing")
       = Throw (UnresolvedTypeError "Missing"))
  ∧ instantiateType furtherDefs "Broken" 2 (request "Broken" None None None)
      = Throw (UnresolvedTypeError "Missing").
Proof.
  split; [done|].
  apply (field_error_propagates furtherDefs "Broken" 1
           (request "Broken" None None None) brokenDef brokenDef
           [field "a" "uint32"] [field "c" "uint8"] (field "b" "Missing")
           [uint32Instance] (UnresolvedTypeError "Missing"));
    try reflexivity; [repeat constructor | lia].
Defined.

Lemma extends_inherits_assertSize_witness :
  (furtherDefs !! "Derived" = Some derivedDef
   ∧ td_assertSize derivedDef = None)
  ∧ ∃ r parent,
      instantiateType furtherDefs "Derived" 3 (request "Derived" None None None)
        = Ok r
      ∧ instantiateType furtherDefs "Derived" 2 (request "Header" None None None)
          = Ok parent
      ∧ td_assertSize (it_typeDef r) = Some 8
      ∧ it_totalSize r = 8.
Proof.
  split; [done|].
  destruct (instantiateType furtherDefs "Derived" 3
              (request "Derived" None None None)) as [r| |] eqn:Hrun;
    [|vm_compute in Hrun; discriminate Hrun..].
  destruct (extends_inherits_assertSize furtherDefs "Derived" 2
              (request "Derived" None None None) derivedDef
              (request "Header" None None None) r eq_refl eq_refl eq_refl
              eq_refl Hrun) as (parent & Hparent & Hsame & Hsizes).
  assert (Ok parent = Ok headerInstance) as [= ->].
  { rewrite <- Hparent. reflexivity. }
  exists r, headerInstance. split; [reflexivity|]. split; [exact Hparent|].
  split; [exact Hsame|].
  exact (proj1 (Hsizes 8 eq_refl ltac:(discriminate))).
Defined.

Lemma self_alias_never_returns_witness :
  furtherDefs !! "Loop" = Some (aliasDef "Loop" None None)
  ∧ instantiateType furtherDefs "Loop" 50
      (request "Loop" (Some [("T", "uint32")]) (Some 4) (Some 2)) = OutOfFuel
  ∧ instantiateType furtherDefs "Loop" 2
      (request "Loop" (Some [("Loop", "uint32")]) None None)
    = Ok (mkInstantiated (primitiveDef (Some 4) None) 4 4 None None
            (Some [("Loop", "uint32")]) "uint32").
Proof.
  split; [reflexivity|]. split; [|reflexivity].
  apply (self_alias_never_returns furtherDefs "Loop" 50 "Loop"
           (aliasDef "Loop" None None) (Some [("T", "uint32")]) (Some 4)
           (Some 2) eq_refl eq_refl); [by right | reflexivity|].
  by intros ? [= <-].
Defined.

Lemma self_struct_never_returns_witness :
  furtherDefs !! "Node" = Some nodeDef
  ∧ instantiateType furtherDefs "Node" 50
      (request "Node" (Some [("T", "uint32")]) None (Some 2)) = OutOfFuel
  ∧ ∃ r, instantiateType furtherDefs "Node" 2
           (request "Node" (Some [("Node", "uint32")]) None None) = Ok r
         ∧ it_totalSize r = 8.
Proof.
  split; [reflexivity|]. split; [|eexists; split; reflexivity].
  apply (self_struct_never_returns furtherDefs "Node" 50 "Node" nodeDef
           (field "next" "Node") [field "value" "uint32"]
           (Some [("T", "uint32")]) None (Some 2));
    try reflexivity.
  by intros ? [= <-].
Defined.

Lemma intrinsic_instantiates_witness :
  INTRINSIC_TYPE_DEFS !! "pad" = Some (primitiveDef None None)
  ∧ instantiateType ({["Header" := headerDef]} ∪ INTRINSIC_TYPE_DEFS) "Header" 1
      (request "pad" None (Some 3) (Some 2))
    = Ok (mkInstantiated (primitiveDef None None) 6 3 (Some 3) (Some 2) None
            "pad")
  ∧ instantiateType ({["Header" := headerDef]} ∪ INTRINSIC_TYPE_DEFS) "Header" 1
      (request "pad" None None None)
    = Throw (UnresolvableSizeError "pad" "Header").
Proof.
  split; [reflexivity|]. split.
  - exact (intrinsic_instantiates {["Header" := headerDef]} "Header" 0 "pad"
             (primitiveDef None None) None (Some 3) (Some 2) eq_refl eq_refl).
  - exact (intrinsic_instantiates {["Header" := headerDef]} "Header" 0 "pad"
             (primitiveDef None None) None None None eq_refl eq_refl).
Defined.

Lemma null_path_records_nothing_witness :
  ∃ table seenTypes',
    renderTypeAsTable exampleDefs "Twice" true 2 (instanceOf "Twice" twiceDef 8)
      None ∅ = Ok (table, seenTypes')
    ∧ is_Some (seenTypes' !! "Flags<undefined>")
    ∧ hasSeen seenTypes' "Flags<undefined>" = None.
Proof.
  destruct (renderTypeAsTable exampleDefs "Twice" true 2
              (instanceOf "Twice" twiceDef 8) None ∅)
    as [[table seenTypes']| |] eqn:Hrun;
    [|vm_compute in Hrun; discriminate Hrun..].
  exists table, seenTypes'. split; [reflexivity|]. split.
  - vm_compute in Hrun. injection Hrun as _ <-. by eexists.
  - exact (proj1 (null_path_records_nothing exampleDefs "Twice" true 2 _ ∅
                    seenTypes' table Hrun) "Flags<undefined>").
Defined.

Lemma struct_rows_sum_to_singleSize_witness :
  (instantiateType exampleDefs "Packed" 2 (request "Packed" None None None)
     = Ok (instanceOf "Packed" packedDef 8)
   ∧ renderTypeAsTable exampleDefs "Packed" false 2
       (instanceOf "Packed" packedDef 8) (Some [""]) ∅
     = Ok (stripOffsets (StructTable packedRows), packedSeen))
  ∧ sumTotalSizes (row_type <$> packedRows) = 8.
Proof.
  assert (renderTypeAsTable exampleDefs "Packed" true 2
            (instanceOf "Packed" packedDef 8) (Some [""]) ∅
          = Ok (StructTable packedRows, packedSeen)) as Hrun
    by (vm_compute; reflexivity).
  split; [split; [reflexivity | vm_compute; reflexivity]|].
  exact (struct_rows_sum_to_singleSize exampleDefs "Packed" true 2 2
           (request "Packed" None None None) packedDef
           (instanceOf "Packed" packedDef 8) (Some [""]) ∅ packedSeen packedRows
           eq_refl eq_refl eq_refl eq_refl eq_refl Hrun).
Defined.

Lemma bitfield_masks_witness :
  td_bits (it_typeDef flagsInstance)
    = Some [mkBit (Some "ready"); mkBit (Some "error")]
  ∧ renderBitfieldAsTable flagsInstance (Some [""; "flags"])
    = Ok (flagsTable (Some [""; "flags"])).
Proof.
  split; [reflexivity|].
  destruct (bitfield_masks flagsInstance (Some [""; "flags"]) _ eq_refl)
    as (rows & Hrun & _). rewrite Hrun. f_equal.
  vm_compute in Hrun. by injection Hrun as <-.
Defined.

Lemma enum_values_witness :
  td_options (it_typeDef kindInstance)
    = Some [mkOption (Some "none") None; mkOption (Some "solid") (Some 5);
            mkOption (Some "liquid") None]
  ∧ renderEnumAsTable kindInstance None
    = Ok (EnumTable [mkOptionRow (Some "none") None 0;
                     mkOptionRow (Some "solid") None 5;
                     mkOptionRow (Some "liquid") None 2]).
Proof.
  split; [reflexivity|].
  destruct (enum_values kindInstance None _ eq_refl) as (rows & Hrun & _).
  rewrite Hrun. f_equal. vm_compute in Hrun. by injection Hrun as <-.
Defined.

Lemma pointer_to_classless_throws_witness :
  instantiateType exampleDefs "Header" 1 pointerField
    = Ok (mkInstantiated (primitiveDef (Some 4) (Some ["T"])) 4 4 None None
            (Some [("T", "uint32")]) "ptr32")
  ∧ renderField true (instantiateType exampleDefs "Header" 1)
      (renderTypeAsTable exampleDefs "Header" true 1) None (Some [""])
      pointerField 0 ∅
    = Throw (ReferenceError "typeDef").
Proof.
  split; [reflexivity|].
  apply (pointer_to_classless_throws exampleDefs "Header" true 1 0 None
           (Some [""]) pointerField 0 ∅
           (mkInstantiated (primitiveDef (Some 4) (Some ["T"])) 4 4 None None
              (Some [("T", "uint32")]) "ptr32")
           uint32Instance [("T", "uint32")]);
    reflexivity.
Defined.

Lemma classless_entry_throws_witness :
  instantiateType (∅ ∪ INTRINSIC_TYPE_DEFS) "uint32" 1
    (request "uint32" None None None) = Ok uint32Instance
  ∧ renderStructYaml 1 ∅ "uint32" true None = Throw (ReferenceError "typeDef").
Proof.
  split; [reflexivity|].
  exact (classless_entry_throws 0 ∅ "uint32" true None uint32Instance
           eq_refl eq_refl).
Defined.
